(** * Declaration merging in the Carbon toolchain's check phase

    A shallow embedding of [toolchain/check/merge.cpp]:
    [ResolvePrevInstForMerge], [ResolveMergeableInst],
    [ReplacePrevInstForMerge] and [MergeImportRef].

    The C++ functions thread one mutable [Context&] through every call and
    may abort the process with [CARBON_FATAL].  They are embedded as
    computations of a state-and-abort monad [M] over a [State] made of the
    semantic-IR stores and a chronological log of the observable actions
    (diagnostics emitted, constant-value queries, collaborator calls). *)

From Stdlib Require Import ZArith String List.
From stdpp Require Import gmap.
Import ListNotations.

Local Open Scope string_scope.
Local Open Scope list_scope.
Local Open Scope Z_scope.

(** ** Ids

    Every id of [sem_ir/ids.h] is an [IdBase] around an [int32_t index];
    the distinguished [Invalid] id has index [-1]. *)

Abbreviation InstId := Z.
Abbreviation ImportIRInstId := Z.
Abbreviation LocId := Z.
Abbreviation NodeId := Z.
Abbreviation NameId := Z.
Abbreviation NameScopeId := Z.
Abbreviation FunctionId := Z.

Definition InvalidIndex : Z := -1.
Definition InstId_Invalid : InstId := InvalidIndex.
Definition ImportIRInstId_Invalid : ImportIRInstId := InvalidIndex.
Definition LocId_Invalid : LocId := InvalidIndex.

(** ** Instructions *)

(** Modelled from the spec: [SemIR::InstKind] is declared in
    [sem_ir/inst_kind.h], outside this file.  The spec makes it a tag
    from a closed set; the four kinds that [merge.cpp] names are listed,
    every other kind of the set is an [Other_Kind] with its tag. *)
Inductive InstKind : Type :=
| ImportRefUnloaded_Kind
| ImportRefUsed_Kind
| Namespace_Kind
| FunctionDecl_Kind
| Other_Kind (tag : Z).

(** Modelled from the spec: [SemIR::Inst] and its typed views are
    declared in [sem_ir/inst.h] and [sem_ir/typed_insts.h], outside this
    file.  The spec makes an instruction a kind with a kind-specific
    payload; the payload fields that [merge.cpp] reads
    ([import_ir_inst_id], [used_id], [function_id]) are kept, and an
    instruction of any other kind is an [OtherInst] with its raw
    arguments. *)
Inductive Inst : Type :=
| ImportRefUnloaded (import_ir_inst_id : ImportIRInstId)
| ImportRefUsed (import_ir_inst_id : ImportIRInstId) (used_id : LocId)
| Namespace (name_scope_id : NameScopeId)
| FunctionDecl (function_id : FunctionId)
| OtherInst (tag : Z) (arg0 arg1 : Z).

Definition kind (i : Inst) : InstKind :=
  match i with
  | ImportRefUnloaded _ => ImportRefUnloaded_Kind
  | ImportRefUsed _ _ => ImportRefUsed_Kind
  | Namespace _ => Namespace_Kind
  | FunctionDecl _ => FunctionDecl_Kind
  | OtherInst tag _ _ => Other_Kind tag
  end.

#[global] Instance InstKind_eq_dec : EqDecision InstKind.
Proof. solve_decision. Defined.

#[global] Instance Inst_eq_dec : EqDecision Inst.
Proof. solve_decision. Defined.

(** [inst.TryAs<SemIR::AnyImportRef>()]: the category of both import
    reference kinds, viewed through their common [import_ir_inst_id]. *)
Definition TryAs_AnyImportRef (i : Inst) : option ImportIRInstId :=
  match i with
  | ImportRefUnloaded import_ir_inst_id => Some import_ir_inst_id
  | ImportRefUsed import_ir_inst_id _ => Some import_ir_inst_id
  | _ => None
  end.

(** [inst.TryAs<SemIR::ImportRefUsed>()], viewed through [used_id]. *)
Definition TryAs_ImportRefUsed (i : Inst) : option LocId :=
  match i with
  | ImportRefUsed _ used_id => Some used_id
  | _ => None
  end.

(** [inst.TryAs<SemIR::FunctionDecl>()], viewed through [function_id]. *)
Definition TryAs_FunctionDecl (i : Inst) : option FunctionId :=
  match i with
  | FunctionDecl function_id => Some function_id
  | _ => None
  end.

(** The kinds [ResolveMergeableInst] accepts. *)
Definition is_import_ref_or_namespace (k : InstKind) : bool :=
  match k with
  | ImportRefUnloaded_Kind | ImportRefUsed_Kind | Namespace_Kind => true
  | _ => false
  end.

(** ** Constant values *)

(** Modelled from the spec: [SemIR::ConstantId] is declared in
    [sem_ir/ids.h], outside this file.  The spec gives the table's result
    as [NonConstant | Resolved(instruction_id)]; [merge.cpp] reads it
    through [is_constant()] and [inst_id()], the latter also without a
    preceding [is_constant()] test, where a non-constant entry designates
    the invalid instruction id. *)
Inductive ConstantId : Type :=
| NotConstant
| Constant (const_inst_id : InstId).

Definition is_constant (c : ConstantId) : bool :=
  match c with
  | NotConstant => false
  | Constant _ => true
  end.

Definition inst_id (c : ConstantId) : InstId :=
  match c with
  | NotConstant => InstId_Invalid
  | Constant const_inst_id => const_inst_id
  end.

(** ** Stores *)

(** Modelled from the spec: [SemIR::NameScope] is declared in
    [sem_ir/name_scope.h], outside this file.  The spec makes a scope a
    mapping from names to instruction ids with at most one binding per
    name; [merge.cpp] touches only this [names] table. *)
Record NameScope : Type := mkNameScope { names : gmap Z Z }.

(** Modelled from the spec: [SemIR::Function] is declared in
    [sem_ir/function.h], outside this file.  The spec speaks only of
    "the new function"; [MergeImportRef] fetches the value and hands it
    on without reading a field, so two fields stand for the whole. *)
Record Function : Type := mkFunction { name_id : NameId; decl_id : InstId }.

(** Modelled from the spec: the value stores behind [Context] live in
    [base/value_store.h] and [sem_ir/], outside this file.  The spec
    gives each as a lookup by id ([get(id) -> Instruction],
    [location_of(id)], [get(id) -> ConstantResolution], a name table per
    scope), so each store is a lookup function on ids. *)
Record Context : Type := mkContext {
  insts : InstId -> Inst;
  loc_ids : InstId -> LocId;
  constant_values : InstId -> ConstantId;
  name_scopes : NameScopeId -> NameScope;
  functions : FunctionId -> Function
}.

(** ** Diagnostics *)

Inductive DiagnosticLevel : Type := Note | Warning | Error.

Inductive DiagnosticKind : Type := RedeclOfUsedImport | UsedImportLoc.

(** What [CARBON_DIAGNOSTIC(Kind, Level, Format)] declares. *)
Record DiagnosticBase : Type := mkDiagnosticBase {
  Kind : DiagnosticKind;
  Level : DiagnosticLevel;
  Format : string
}.

(** A location handed to the emitter: [Build] receives a parse node, [Note]
    here receives a [LocId]. *)
Inductive DiagnosticLoc : Type :=
| AtNode (node_id : NodeId)
| AtLoc (loc_id : LocId).

Record DiagnosticMessage : Type := mkDiagnosticMessage {
  message_loc : DiagnosticLoc;
  message_base : DiagnosticBase
}.

(** A diagnostic under construction and, after [Emit], as delivered: the
    main message and the notes attached to it, in order. *)
Record Diagnostic : Type := mkDiagnostic {
  message : DiagnosticMessage;
  notes : list DiagnosticMessage
}.

Definition diagnostic_level (d : Diagnostic) : DiagnosticLevel :=
  Level (message_base (message d)).

Definition Build (loc : DiagnosticLoc) (base : DiagnosticBase) : Diagnostic :=
  {| message := {| message_loc := loc; message_base := base |}; notes := [] |}.

Definition AddNote (d : Diagnostic) (loc : DiagnosticLoc) (base : DiagnosticBase)
  : Diagnostic :=
  {| message := message d;
     notes := notes d ++ [{| message_loc := loc; message_base := base |}] |}.

(** ** Observable actions *)

Inductive Event : Type :=
| Emit (d : Diagnostic)
| ConstantValuesGet (inst_id : InstId)
| CallLoadImportRef (inst_id : InstId) (loc_id : LocId)
| CallDiagnoseDuplicateName (new_inst_id prev_inst_id : InstId)
| CallMergeFunctionRedecl (loc_id : LocId) (new_function : Function)
    (new_is_import new_is_definition : bool)
    (prev_function_id : FunctionId) (import_ir_inst_id : ImportIRInstId)
| CallTODO (inst_id : InstId) (msg : string).

Record State : Type := mkState {
  context : Context;
  trace : list Event
}.

(** ** The monad of check-phase code *)

Inductive Result (A : Type) : Type :=
| Ok (a : A)
| Fatal (msg : string) (subject : Inst).
Arguments Ok {A} a.
Arguments Fatal {A} msg subject.

Definition M (A : Type) : Type := State -> Result (A * State).

Definition ret {A : Type} (a : A) : M A := fun st => Ok (a, st).

Definition bind {A B : Type} (m : M A) (k : A -> M B) : M B :=
  fun st =>
    match m st with
    | Ok (a, st') => k a st'
    | Fatal msg subject => Fatal msg subject
    end.

Notation "'do' x <- m ; k" := (bind m (fun x => k))
  (at level 10, x name, m at level 100, k at level 200).
Notation "'do_' m ; k" := (bind m (fun _ => k))
  (at level 10, m at level 100, k at level 200).

(** [CARBON_FATAL() << msg << subject]. *)
Definition CARBON_FATAL {A : Type} (msg : string) (subject : Inst) : M A :=
  fun _ => Fatal msg subject.

Definition gets {A : Type} (f : Context -> A) : M A :=
  fun st => Ok (f (context st), st).

Definition log (e : Event) : M unit :=
  fun st => Ok (tt, {| context := context st; trace := trace st ++ [e] |}).

Definition modify (f : Context -> Context) : M unit :=
  fun st => Ok (tt, {| context := f (context st); trace := trace st |}).

(** [context.insts().Get(id)] and [context.insts().GetLocId(id)]. *)
Definition insts_Get (id : InstId) : M Inst := gets (fun c => insts c id).
Definition insts_GetLocId (id : InstId) : M LocId := gets (fun c => loc_ids c id).

(** [context.constant_values().Get(id)]; every query is logged. *)
Definition constant_values_Get (id : InstId) : M ConstantId :=
  do_ log (ConstantValuesGet id);
  gets (fun c => constant_values c id).

(** [context.functions().Get(id)]. *)
Definition functions_Get (id : FunctionId) : M Function :=
  gets (fun c => functions c id).

(** [context.emitter() ... .Emit()]. *)
Definition emitter_Emit (d : Diagnostic) : M unit := log (Emit d).

(** Modelled from the spec: [Inst::As<T>] is declared in [sem_ir/inst.h],
    outside this file.  The spec makes payload fields accessible only
    after a kind check; a failed check is an internal error. *)
Definition As {A : Type} (what : string) (view : Inst -> option A) (i : Inst)
  : M A :=
  match view i with
  | Some a => ret a
  | None => CARBON_FATAL what i
  end.

(** ** Collaborators *)

(** Modelled from the spec: [LoadImportRef] ([check/import_ref.h]),
    [MergeFunctionRedecl] ([check/function.h]),
    [Context::DiagnoseDuplicateName] and [Context::TODO] are defined
    outside this file.  The spec gives each as a procedure that returns
    nothing and reports on its own through the emitter, so each is an
    interface method: an unknown update of the stores.  A call is logged
    with its arguments before the update is applied; what a collaborator
    emits itself is not part of the log. *)
Class Collaborators : Type := {
  LoadImportRef_update : InstId -> LocId -> Context -> Context;
  MergeFunctionRedecl_update :
    LocId -> Function -> bool -> bool -> FunctionId -> ImportIRInstId ->
    Context -> Context;
  DiagnoseDuplicateName_update : InstId -> InstId -> Context -> Context;
  TODO_update : InstId -> string -> Context -> Context
}.

(** The result of resolving an instruction for merging ([check/merge.h]). *)
Record InstForMerge : Type := mkInstForMerge {
  inst : Inst;
  import_ir_inst_id : ImportIRInstId
}.

Definition RedeclOfUsedImport_base : DiagnosticBase :=
  {| Kind := RedeclOfUsedImport; Level := Error;
     Format := "Redeclaration of imported entity that was previously used." |}.

Definition UsedImportLoc_base : DiagnosticBase :=
  {| Kind := UsedImportLoc; Level := Note; Format := "Import used here." |}.

(** The diagnostic of lines 27-34: an [Error] at the redeclaring node
    with one [Note] at the recorded use. *)
Definition RedeclOfUsedImport_diagnostic (node_id : NodeId) (used_id : LocId)
  : Diagnostic :=
  {| message := {| message_loc := AtNode node_id;
                   message_base := RedeclOfUsedImport_base |};
     notes := [{| message_loc := AtLoc used_id;
                  message_base := UsedImportLoc_base |}] |}.

Definition Unexpected_inst_kind : string :=
  "Unexpected inst kind passed to ResolveMergeableInst: ".

Section Merge.
Context `{Collaborators}.

Definition LoadImportRef (inst_id : InstId) (loc_id : LocId) : M unit :=
  do_ log (CallLoadImportRef inst_id loc_id);
  modify (LoadImportRef_update inst_id loc_id).

Definition MergeFunctionRedecl (loc_id : LocId) (new_function : Function)
    (new_is_import new_is_definition : bool) (prev_function_id : FunctionId)
    (prev_import_ir_inst_id : ImportIRInstId) : M unit :=
  do_ log (CallMergeFunctionRedecl loc_id new_function new_is_import
             new_is_definition prev_function_id prev_import_ir_inst_id);
  modify (MergeFunctionRedecl_update loc_id new_function new_is_import
            new_is_definition prev_function_id prev_import_ir_inst_id).

Definition DiagnoseDuplicateName (new_inst_id prev_inst_id : InstId) : M unit :=
  do_ log (CallDiagnoseDuplicateName new_inst_id prev_inst_id);
  modify (DiagnoseDuplicateName_update new_inst_id prev_inst_id).

Definition TODO (inst_id : InstId) (msg : string) : M unit :=
  do_ log (CallTODO inst_id msg);
  modify (TODO_update inst_id msg).

(** [ResolvePrevInstForMerge], lines 15-41. *)
Definition ResolvePrevInstForMerge (node_id : NodeId) (prev_inst_id : InstId)
  : M InstForMerge :=
  do prev_inst <- insts_Get prev_inst_id;
  match TryAs_AnyImportRef prev_inst with
  | None =>
      (* If not imported, use the instruction directly. *)
      ret {| inst := prev_inst; import_ir_inst_id := ImportIRInstId_Invalid |}
  | Some import_ref_import_ir_inst_id =>
      (* If the import ref was previously used, print a diagnostic. *)
      do_ match TryAs_ImportRefUsed prev_inst with
          | Some used_id =>
              emitter_Emit
                (AddNote (Build (AtNode node_id) RedeclOfUsedImport_base)
                         (AtLoc used_id) UsedImportLoc_base)
          | None => ret tt
          end;
      (* Follow the import ref. *)
      do const_id <- constant_values_Get prev_inst_id;
      do resolved <- insts_Get (inst_id const_id);
      ret {| inst := resolved;
             import_ir_inst_id := import_ref_import_ir_inst_id |}
  end.

(** [ResolveMergeableInst], lines 68-76: what follows the [switch] on the
    two import reference kinds.  [inst'] is the copy read before any
    load; the constant value is read afterwards. *)
Definition ResolveMergeableInst_follow (inst_id' : InstId) (inst' : Inst)
  : M (option InstForMerge) :=
  do const_id <- constant_values_Get inst_id';
  if negb (is_constant const_id) then ret None
  else
    do resolved <- insts_Get (inst_id const_id);
    do import_ref_import_ir_inst_id <-
      As "As<AnyImportRef>" TryAs_AnyImportRef inst';
    ret (Some {| inst := resolved;
                 import_ir_inst_id := import_ref_import_ir_inst_id |}).

(** [ResolveMergeableInst], lines 45-77. *)
Definition ResolveMergeableInst (inst_id' : InstId) : M (option InstForMerge) :=
  do inst' <- insts_Get inst_id';
  match kind inst' with
  | ImportRefUnloaded_Kind =>
      (* Load before merging. *)
      do_ LoadImportRef inst_id' LocId_Invalid;
      ResolveMergeableInst_follow inst_id' inst'
  | ImportRefUsed_Kind =>
      (* Already loaded. *)
      ResolveMergeableInst_follow inst_id' inst'
  | Namespace_Kind =>
      (* Return back the namespace directly. *)
      ret (Some {| inst := inst';
                   import_ir_inst_id := ImportIRInstId_Invalid |})
  | _ => CARBON_FATAL Unexpected_inst_kind inst'
  end.

(** [ReplacePrevInstForMerge], lines 79-87. *)
Definition ReplacePrevInstForMerge (scope_id : NameScopeId) (name_id' : NameId)
    (new_inst_id : InstId) : M unit :=
  do scope_names <- gets (fun c => names (name_scopes c scope_id));
  match scope_names !! name_id' with
  | Some _ =>
      modify (fun c =>
        {| insts := insts c;
           loc_ids := loc_ids c;
           constant_values := constant_values c;
           name_scopes := fun s =>
             if decide (s = scope_id)
             then {| names := <[name_id' := new_inst_id]> (names (name_scopes c s)) |}
             else name_scopes c s;
           functions := functions c |})
  | None => ret tt
  end.

(** [MergeImportRef], lines 93-123: what is done with the two
    resolutions. *)
Definition MergeImportRef_dispatch (new_inst_id prev_inst_id : InstId)
    (new_inst prev_inst : option InstForMerge) : M unit :=
  match new_inst, prev_inst with
  | Some new_inst, Some prev_inst =>
      if negb (bool_decide (kind (inst new_inst) = kind (inst prev_inst)))
      then DiagnoseDuplicateName new_inst_id prev_inst_id
      else
        match TryAs_FunctionDecl (inst new_inst) with
        | Some new_decl_function_id =>
            do prev_decl_function_id <-
              As "As<FunctionDecl>" TryAs_FunctionDecl (inst prev_inst);
            do new_fn <- functions_Get new_decl_function_id;
            do loc_id <- insts_GetLocId new_inst_id;
            MergeFunctionRedecl loc_id new_fn
              (*new_is_import=*) true
              (*new_is_definition=*) false prev_decl_function_id
              (import_ir_inst_id prev_inst)
        | None => TODO new_inst_id "Merging not yet supported."
        end
  | _, _ => DiagnoseDuplicateName new_inst_id prev_inst_id
  end.

(** [MergeImportRef], lines 89-124. *)
Definition MergeImportRef (new_inst_id prev_inst_id : InstId) : M unit :=
  do new_inst <- ResolveMergeableInst new_inst_id;
  do prev_inst <- ResolveMergeableInst prev_inst_id;
  MergeImportRef_dispatch new_inst_id prev_inst_id new_inst prev_inst.

End Merge.

(** ** Reading the log *)

Definition is_DiagnoseDuplicateName (e : Event) : bool :=
  match e with CallDiagnoseDuplicateName _ _ => true | _ => false end.

Definition is_MergeFunctionRedecl (e : Event) : bool :=
  match e with CallMergeFunctionRedecl _ _ _ _ _ _ => true | _ => false end.

Definition is_TODO (e : Event) : bool :=
  match e with CallTODO _ _ => true | _ => false end.

Definition is_LoadImportRef (e : Event) : bool :=
  match e with CallLoadImportRef _ _ => true | _ => false end.

Definition is_ConstantValuesGet (e : Event) : bool :=
  match e with ConstantValuesGet _ => true | _ => false end.

Definition is_Emit (e : Event) : bool :=
  match e with Emit _ => true | _ => false end.

(** The events of [evs] that satisfy [p], in order. *)
Definition select (p : Event -> bool) (evs : list Event) : list Event :=
  List.filter p evs.

(** Running [m] from [st] returns [a], logs exactly [evs] and leaves the
    stores as [c']. *)
Definition returns {A : Type} (m : M A) (st : State) (a : A)
    (evs : list Event) (c' : Context) : Prop :=
  m st = Ok (a, {| context := c'; trace := trace st ++ evs |}).

(** Running [m] from [st] aborts. *)
Definition aborts {A : Type} (m : M A) (st : State) (msg : string)
    (subject : Inst) : Prop :=
  m st = Fatal msg subject.

(** What [ResolveMergeableInst] logs and does to the stores when it
    returns, by the instruction it is given. *)
Definition resolver_events (i : Inst) (id : InstId) : list Event :=
  match i with
  | ImportRefUnloaded _ => [CallLoadImportRef id LocId_Invalid; ConstantValuesGet id]
  | ImportRefUsed _ _ => [ConstantValuesGet id]
  | _ => []
  end.

Definition resolver_context `{Collaborators} (i : Inst) (id : InstId)
    (c : Context) : Context :=
  match i with
  | ImportRefUnloaded _ => LoadImportRef_update id LocId_Invalid c
  | _ => c
  end.

(** What [ResolvePrevInstForMerge] logs and returns, by the instruction
    it is given. *)
Definition candidate_events (node_id : NodeId) (i : Inst) (id : InstId)
  : list Event :=
  match i with
  | ImportRefUnloaded _ => [ConstantValuesGet id]
  | ImportRefUsed _ used_id =>
      [Emit (RedeclOfUsedImport_diagnostic node_id used_id);
       ConstantValuesGet id]
  | _ => []
  end.

Definition candidate_result (c : Context) (i : Inst) (id : InstId)
  : InstForMerge :=
  match TryAs_AnyImportRef i with
  | Some imp =>
      {| inst := insts c (inst_id (constant_values c id));
         import_ir_inst_id := imp |}
  | None => {| inst := i; import_ir_inst_id := ImportIRInstId_Invalid |}
  end.

(** ** A concrete session

    A loader that marks the reference used at the given location and
    records, as its constant value, the instruction ten slots further;
    the other collaborators leave the stores alone. *)

Module Example.

Definition set_inst (id : InstId) (i : Inst) (c : Context) : Context :=
  {| insts := fun j => if Z.eqb j id then i else insts c j;
     loc_ids := loc_ids c;
     constant_values := constant_values c;
     name_scopes := name_scopes c;
     functions := functions c |}.

Definition set_constant_value (id : InstId) (v : ConstantId) (c : Context)
  : Context :=
  {| insts := insts c;
     loc_ids := loc_ids c;
     constant_values := fun j => if Z.eqb j id then v else constant_values c j;
     name_scopes := name_scopes c;
     functions := functions c |}.

Definition load (id : InstId) (loc : LocId) (c : Context) : Context :=
  match insts c id with
  | ImportRefUnloaded imp =>
      set_constant_value id (Constant (id + 10))
        (set_inst id (ImportRefUsed imp loc) c)
  | _ => c
  end.

#[export] Instance collaborators : Collaborators := {|
  LoadImportRef_update := load;
  MergeFunctionRedecl_update := fun _ _ _ _ _ _ c => c;
  DiagnoseDuplicateName_update := fun _ _ c => c;
  TODO_update := fun _ _ c => c
|}.

Definition example_insts (id : InstId) : Inst :=
  match id with
  | 0 => ImportRefUsed 40 7        (* import of a function, used at 7 *)
  | 1 => ImportRefUnloaded 41      (* import of a function, not loaded *)
  | 2 => Namespace 5
  | 3 => FunctionDecl 3            (* local function *)
  | 4 => ImportRefUsed 44 9        (* import of a variable *)
  | 5 => OtherInst 17 0 0          (* local variable storage *)
  | 6 => ImportRefUsed 46 8        (* import of a class *)
  | 7 => ImportRefUsed 47 8        (* import of a class *)
  | 8 => Namespace 6
  | 10 => FunctionDecl 1
  | 11 => FunctionDecl 2
  | 13 => FunctionDecl 4           (* local function *)
  | _ => OtherInst 20 0 0          (* class declarations *)
  end.

Definition example_constant_values (id : InstId) : ConstantId :=
  match id with
  | 0 => Constant 10
  | 6 => Constant 16
  | 7 => Constant 17
  | _ => NotConstant
  end.

Definition example_names : gmap Z Z := <[100 := 3]> (<[101 := 0]> ∅).

Definition example_context : Context :=
  {| insts := example_insts;
     loc_ids := fun id => 1000 + id;
     constant_values := example_constant_values;
     name_scopes := fun _ => {| names := example_names |};
     functions := fun id => {| name_id := 100 + id; decl_id := id |} |}.

Definition example_state : State :=
  {| context := example_context; trace := [] |}.

(** The session once the loader has run on reference 1. *)
Definition loaded_context : Context := load 1 LocId_Invalid example_context.

End Example.

(** ** Further vocabulary for the properties below *)

(** What [ResolveMergeableInst] returns on an accepted instruction [i]
    read before the load, from the stores [c'] the switch left. *)
Definition resolver_result (c' : Context) (i : Inst) (id : InstId)
  : option InstForMerge :=
  match TryAs_AnyImportRef i with
  | Some imp =>
      match constant_values c' id with
      | NotConstant => None
      | Constant target =>
          Some {| inst := insts c' target; import_ir_inst_id := imp |}
      end
  | None => Some {| inst := i; import_ir_inst_id := ImportIRInstId_Invalid |}
  end.

(** The calls by which [MergeImportRef] concludes. *)
Definition is_decision_call (e : Event) : bool :=
  is_DiagnoseDuplicateName e || is_MergeFunctionRedecl e || is_TODO e.

(** Two sessions hold the same stores, name tables compared scope by
    scope. *)
Definition same_stores (c1 c2 : Context) : Prop :=
  insts c1 = insts c2
  /\ loc_ids c1 = loc_ids c2
  /\ constant_values c1 = constant_values c2
  /\ functions c1 = functions c2
  /\ forall s : NameScopeId, name_scopes c1 s = name_scopes c2 s.

(** The name table of a scope after [ReplacePrevInstForMerge]: the
    binding of the name, if there is one, is replaced. *)
Definition rebound (name : NameId) (new_inst_id : InstId) (tbl : gmap Z Z)
  : gmap Z Z :=
  match tbl !! name with
  | Some _ => <[name := new_inst_id]> tbl
  | None => tbl
  end.

(** A second session: two unloaded import references, to functions. *)
Module Example2.

Definition example2_insts (id : InstId) : Inst :=
  match id with
  | 1 => ImportRefUnloaded 41
  | 2 => ImportRefUnloaded 42
  | 11 => FunctionDecl 1
  | 12 => FunctionDecl 2
  | _ => OtherInst 20 0 0
  end.

Definition example2_context : Context :=
  {| insts := example2_insts;
     loc_ids := fun id => 1000 + id;
     constant_values := fun _ => NotConstant;
     name_scopes := fun _ => {| names := ∅ |};
     functions := fun id => {| name_id := 100 + id; decl_id := id |} |}.

Definition example2_state : State :=
  {| context := example2_context; trace := [] |}.

End Example2.

(** ** Basic facts *)

(** Unfolds the primitive operations of [M] and computes. *)
Ltac run_M :=
  unfold bind, ret, gets, log, modify, insts_Get, insts_GetLocId,
    constant_values_Get, functions_Get, emitter_Emit, As, CARBON_FATAL;
  simpl.

Section Facts.
Context `{Collaborators}.

Lemma select_app (p : Event -> bool) (l1 l2 : list Event) :
  select p (l1 ++ l2) = select p l1 ++ select p l2.
Proof. unfold select. apply List.filter_app. Qed.

Lemma state_eta (st : State) :
  {| context := context st; trace := trace st |} = st.
Proof. destruct st; reflexivity. Qed.

Lemma trace_nil_r (st : State) :
  {| context := context st; trace := trace st ++ [] |} = st.
Proof. rewrite app_nil_r. apply state_eta. Qed.

(** The part after the [switch] returns on every import reference. *)
Lemma ResolveMergeableInst_follow_run (id : InstId) (i : Inst) (st : State) :
  is_Some (TryAs_AnyImportRef i) ->
  exists r,
    ResolveMergeableInst_follow id i st
    = Ok (r, {| context := context st;
                trace := trace st ++ [ConstantValuesGet id] |})
    /\ r = match constant_values (context st) id with
           | NotConstant => None
           | Constant target =>
               Some {| inst := insts (context st) target;
                       import_ir_inst_id :=
                         default ImportIRInstId_Invalid (TryAs_AnyImportRef i) |}
           end.
Proof.
  intros [imp Himp].
  unfold ResolveMergeableInst_follow. run_M.
  destruct (constant_values (context st) id) as [|target]; simpl.
  - eexists; split; reflexivity.
  - rewrite Himp. simpl. eexists; split; reflexivity.
Qed.

(** Every run of the resolver, by the instruction under the id. *)
Lemma ResolveMergeableInst_run (id : InstId) (st : State) :
  let i := insts (context st) id in
  if is_import_ref_or_namespace (kind i)
  then exists r,
      returns (ResolveMergeableInst id) st r (resolver_events i id)
              (resolver_context i id (context st))
  else aborts (ResolveMergeableInst id) st Unexpected_inst_kind i.
Proof.
  unfold returns, aborts, ResolveMergeableInst. run_M.
  destruct (insts (context st) id) as [imp|imp used|ns|fn|tag a0 a1] eqn:Hi;
    simpl.
  - unfold LoadImportRef. run_M.
    destruct (ResolveMergeableInst_follow_run id (ImportRefUnloaded imp)
                {| context := LoadImportRef_update id LocId_Invalid (context st);
                   trace := trace st ++ [CallLoadImportRef id LocId_Invalid] |})
      as (r & Hr & _); [eexists; reflexivity|].
    exists r. rewrite Hr. simpl. rewrite <- app_assoc. reflexivity.
  - destruct (ResolveMergeableInst_follow_run id (ImportRefUsed imp used) st)
      as (r & Hr & _); [eexists; reflexivity|].
    exists r. rewrite Hr. reflexivity.
  - eexists. rewrite trace_nil_r. reflexivity.
  - reflexivity.
  - reflexivity.
Qed.

(** A returning resolver call logs only loads and constant-value queries. *)
Lemma ResolveMergeableInst_returns (id : InstId) (st st' : State)
    (r : option InstForMerge) :
  ResolveMergeableInst id st = Ok (r, st') ->
  is_import_ref_or_namespace (kind (insts (context st) id)) = true
  /\ trace st' = trace st ++ resolver_events (insts (context st) id) id
  /\ context st' = resolver_context (insts (context st) id) id (context st).
Proof.
  intros Hrun. pose proof (ResolveMergeableInst_run id st) as Hall.
  simpl in Hall.
  destruct (is_import_ref_or_namespace (kind (insts (context st) id))).
  - destruct Hall as (r' & Hr'). unfold returns in Hr'.
    rewrite Hr' in Hrun. inversion Hrun; subst. simpl. auto.
  - unfold aborts in Hall. rewrite Hall in Hrun. discriminate.
Qed.

Lemma resolver_events_select (i : Inst) (id : InstId) :
  select is_DiagnoseDuplicateName (resolver_events i id) = []
  /\ select is_MergeFunctionRedecl (resolver_events i id) = []
  /\ select is_TODO (resolver_events i id) = []
  /\ select is_Emit (resolver_events i id) = [].
Proof. destruct i; repeat split; reflexivity. Qed.

(** The [Namespace] arm returns at once. *)
Lemma Namespace_arm_returns (id : InstId) (st : State) :
  kind (insts (context st) id) = Namespace_Kind ->
  ResolveMergeableInst id st
  = Ok (Some {| inst := insts (context st) id;
                import_ir_inst_id := ImportIRInstId_Invalid |}, st).
Proof.
  intros Hk. unfold ResolveMergeableInst. run_M. rewrite Hk. reflexivity.
Qed.

(** Every run of the candidate resolver: it always returns and never
    touches the stores. *)
Lemma ResolvePrevInstForMerge_run (node_id : NodeId) (id : InstId)
    (st : State) :
  let i := insts (context st) id in
  returns (ResolvePrevInstForMerge node_id id) st
    (candidate_result (context st) i id) (candidate_events node_id i id)
    (context st).
Proof.
  unfold returns, ResolvePrevInstForMerge, candidate_result. run_M.
  destruct (insts (context st) id); simpl;
    rewrite <- ?app_assoc, ?trace_nil_r; reflexivity.
Qed.

End Facts.

(** ** The Mergeable-Instruction Resolver *)

Section Resolver.
Context `{Collaborators}.

(** C3: on an instruction whose kind is neither import reference kind nor
    [Namespace], [ResolveMergeableInst] aborts with the message
    "Unexpected inst kind passed to ResolveMergeableInst: " followed by
    the offending instruction, and returns nothing; on the three kinds
    of its precondition it returns, so the abort is not reached. *)
Theorem ResolveMergeableInst_fatal_outside_precondition
    (id : InstId) (st : State) :
  let i := insts (context st) id in
  (kind i <> ImportRefUnloaded_Kind ->
   kind i <> ImportRefUsed_Kind ->
   kind i <> Namespace_Kind ->
   aborts (ResolveMergeableInst id) st Unexpected_inst_kind i
   /\ forall r st', ResolveMergeableInst id st <> Ok (r, st'))
  /\ (kind i = ImportRefUnloaded_Kind \/ kind i = ImportRefUsed_Kind
      \/ kind i = Namespace_Kind ->
      (exists r st', ResolveMergeableInst id st = Ok (r, st'))
      /\ forall msg subject, ~ aborts (ResolveMergeableInst id) st msg subject).
Proof.
  intros i. pose proof (ResolveMergeableInst_run id st) as Hrun.
  simpl in Hrun. fold i in Hrun. split.
  - intros Hu Hd Hn.
    assert (is_import_ref_or_namespace (kind i) = false) as Hout.
    { destruct (kind i); simpl; congruence. }
    rewrite Hout in Hrun. split; [exact Hrun|].
    intros r st' Hok. unfold aborts in Hrun. congruence.
  - intros Hin.
    assert (is_import_ref_or_namespace (kind i) = true) as Hpre.
    { destruct Hin as [-> | [-> | ->]]; reflexivity. }
    rewrite Hpre in Hrun. destruct Hrun as (r & Hr). unfold returns in Hr.
    split; [eauto|].
    intros msg subject Hab. unfold aborts in Hab. congruence.
Qed.

(** C4: on a [Namespace] instruction [ResolveMergeableInst] returns that
    very instruction with the invalid [ImportIRInstId]; it logs nothing
    (no [LoadImportRef] call, no constant-value query) and leaves the
    stores as they are, whatever the constant-value table holds. *)
Theorem ResolveMergeableInst_Namespace (id : InstId) (st : State) :
  kind (insts (context st) id) = Namespace_Kind ->
  ResolveMergeableInst id st
  = Ok (Some {| inst := insts (context st) id;
                import_ir_inst_id := ImportIRInstId_Invalid |}, st)
  /\ returns (ResolveMergeableInst id) st
       (Some {| inst := insts (context st) id;
                import_ir_inst_id := ImportIRInstId_Invalid |})
       [] (context st)
  /\ forall table : InstId -> ConstantId,
       let st_table :=
         {| context :=
              {| insts := insts (context st);
                 loc_ids := loc_ids (context st);
                 constant_values := table;
                 name_scopes := name_scopes (context st);
                 functions := functions (context st) |};
            trace := trace st |} in
       ResolveMergeableInst id st_table
       = Ok (Some {| inst := insts (context st) id;
                     import_ir_inst_id := ImportIRInstId_Invalid |}, st_table).
Proof.
  intros Hk. split; [|split].
  - apply Namespace_arm_returns, Hk.
  - unfold returns. rewrite trace_nil_r.
    apply Namespace_arm_returns, Hk.
  - intros table st_table.
    apply (Namespace_arm_returns id st_table). exact Hk.
Qed.

End Resolver.

(** ** The Merge-Candidate Resolver *)

Section Candidate.
Context `{Collaborators}.

(** C5: when the previous instruction is an [ImportRefUsed],
    [ResolvePrevInstForMerge] emits exactly one diagnostic, of level
    [Error], carrying exactly one note, of level [Note], located at the
    reference's [used_id]; it then returns the instruction that the
    constant value of the previous id designates, with the reference's
    [import_ir_inst_id]. *)
Theorem ResolvePrevInstForMerge_ImportRefUsed
    (node_id : NodeId) (prev_inst_id : InstId) (st : State)
    (imp : ImportIRInstId) (used_id : LocId) :
  insts (context st) prev_inst_id = ImportRefUsed imp used_id ->
  let d := RedeclOfUsedImport_diagnostic node_id used_id in
  exists evs,
    returns (ResolvePrevInstForMerge node_id prev_inst_id) st
      {| inst := insts (context st)
                   (inst_id (constant_values (context st) prev_inst_id));
         import_ir_inst_id := imp |}
      evs (context st)
    /\ select is_Emit evs = [Emit d]
    /\ diagnostic_level d = Error
    /\ map (fun n => (Level (message_base n), message_loc n)) (notes d)
       = [(Note, AtLoc used_id)]
    /\ select is_LoadImportRef evs = [].
Proof.
  intros Hprev d.
  exists [Emit d; ConstantValuesGet prev_inst_id].
  pose proof (ResolvePrevInstForMerge_run node_id prev_inst_id st) as Hrun.
  simpl in Hrun. rewrite Hprev in Hrun. repeat split. exact Hrun.
Qed.

(** C10: when the previous instruction is an [ImportRefUnloaded],
    [ResolvePrevInstForMerge] emits nothing and does not call
    [LoadImportRef]: its only logged action is the constant-value query
    for the previous id, and the stores (so the reference itself) are
    unchanged.  It returns the instruction that this constant value
    designates, with the reference's [import_ir_inst_id].
    [ResolveMergeableInst] on the same id does call [LoadImportRef],
    first; [ResolvePrevInstForMerge] calls it on no instruction. *)
Theorem ResolvePrevInstForMerge_ImportRefUnloaded
    (node_id : NodeId) (prev_inst_id : InstId) (st : State)
    (imp : ImportIRInstId) :
  insts (context st) prev_inst_id = ImportRefUnloaded imp ->
  returns (ResolvePrevInstForMerge node_id prev_inst_id) st
    {| inst := insts (context st)
                 (inst_id (constant_values (context st) prev_inst_id));
       import_ir_inst_id := imp |}
    [ConstantValuesGet prev_inst_id] (context st)
  /\ (exists r,
        returns (ResolveMergeableInst prev_inst_id) st r
          [CallLoadImportRef prev_inst_id LocId_Invalid;
           ConstantValuesGet prev_inst_id]
          (LoadImportRef_update prev_inst_id LocId_Invalid (context st)))
  /\ (forall (node : NodeId) (id : InstId) (st0 : State),
        exists r evs,
          returns (ResolvePrevInstForMerge node id) st0 r evs (context st0)
          /\ select is_LoadImportRef evs = []).
Proof.
  intros Hprev. split; [|split].
  - pose proof (ResolvePrevInstForMerge_run node_id prev_inst_id st) as Hrun.
    simpl in Hrun. rewrite Hprev in Hrun. exact Hrun.
  - pose proof (ResolveMergeableInst_run prev_inst_id st) as Hrun.
    simpl in Hrun. rewrite Hprev in Hrun. exact Hrun.
  - intros node id st0. eexists. eexists.
    split; [apply ResolvePrevInstForMerge_run|].
    destruct (insts (context st0) id); reflexivity.
Qed.

End Candidate.

(** ** The Scope Rebinder *)

Section Rebinder.

(** C9: [ReplacePrevInstForMerge] always returns and logs nothing.  When
    the name is bound in the scope, the scope's table afterwards is the
    old one with that binding overwritten by the new id, every other
    scope and store being untouched; when the name is not bound, the
    whole state is unchanged.  In both cases the table binds the same
    names as before. *)
Theorem ReplacePrevInstForMerge_overwrites_only
    (scope_id : NameScopeId) (name : NameId) (new_inst_id : InstId)
    (st : State) :
  let tbl := names (name_scopes (context st) scope_id) in
  exists st',
    ReplacePrevInstForMerge scope_id name new_inst_id st = Ok (tt, st')
    /\ trace st' = trace st
    /\ dom (names (name_scopes (context st') scope_id)) = dom tbl
    /\ (is_Some (tbl !! name) ->
        names (name_scopes (context st') scope_id)
        = <[name := new_inst_id]> tbl
        /\ names (name_scopes (context st') scope_id) !! name
           = Some new_inst_id
        /\ (forall s, s <> scope_id ->
              name_scopes (context st') s = name_scopes (context st) s)
        /\ insts (context st') = insts (context st)
        /\ loc_ids (context st') = loc_ids (context st)
        /\ constant_values (context st') = constant_values (context st)
        /\ functions (context st') = functions (context st))
    /\ (tbl !! name = None -> st' = st).
Proof.
  intros tbl.
  unfold ReplacePrevInstForMerge. run_M.
  fold tbl. destruct (tbl !! name) as [old|] eqn:Hfind.
  - eexists. split; [reflexivity|]. simpl.
    rewrite decide_True by reflexivity. simpl. fold tbl.
    split; [reflexivity|]. split; [|split].
    + apply dom_insert_lookup_L. eauto.
    + intros _. split; [reflexivity|]. split; [apply lookup_insert_eq|].
      split; [|auto].
      intros s Hs. rewrite decide_False by exact Hs. reflexivity.
    + discriminate.
  - exists st. split; [reflexivity|]. split; [reflexivity|].
    split; [reflexivity|]. split; [|reflexivity].
    intros [x Hx]. discriminate.
Qed.

End Rebinder.

(** ** The Merge Orchestrator *)

Section Orchestrator.
Context `{Collaborators}.

(** Once both resolver calls have returned, the orchestrator continues
    with the dispatch, from the state the second call left; what the two
    calls logged contains no diagnostic, merge or [TODO] call. *)
Lemma MergeImportRef_resolved (new_inst_id prev_inst_id : InstId)
    (st st1 st2 : State) (r1 r2 : option InstForMerge) :
  ResolveMergeableInst new_inst_id st = Ok (r1, st1) ->
  ResolveMergeableInst prev_inst_id st1 = Ok (r2, st2) ->
  MergeImportRef new_inst_id prev_inst_id st
  = MergeImportRef_dispatch new_inst_id prev_inst_id r1 r2 st2
  /\ exists pre,
       trace st2 = trace st ++ pre
       /\ select is_DiagnoseDuplicateName pre = []
       /\ select is_MergeFunctionRedecl pre = []
       /\ select is_TODO pre = [].
Proof.
  intros H1 H2. split.
  - unfold MergeImportRef, bind. rewrite H1, H2. reflexivity.
  - apply ResolveMergeableInst_returns in H1 as (_ & Ht1 & _).
    apply ResolveMergeableInst_returns in H2 as (_ & Ht2 & _).
    eexists. rewrite Ht2, Ht1, <- app_assoc. split; [reflexivity|].
    rewrite !select_app.
    destruct (resolver_events_select (insts (context st) new_inst_id)
                new_inst_id) as (-> & -> & -> & _).
    destruct (resolver_events_select (insts (context st1) prev_inst_id)
                prev_inst_id) as (-> & -> & -> & _).
    auto.
Qed.

(** A dispatch that makes one collaborator call [ev] with store update
    [upd] makes the whole run return with that call as the only one of
    its sort. *)
Lemma MergeImportRef_one_call (new_inst_id prev_inst_id : InstId)
    (st st1 st2 : State) (r1 r2 : option InstForMerge)
    (ev : Event) (upd : Context -> Context) :
  ResolveMergeableInst new_inst_id st = Ok (r1, st1) ->
  ResolveMergeableInst prev_inst_id st1 = Ok (r2, st2) ->
  MergeImportRef_dispatch new_inst_id prev_inst_id r1 r2 st2
  = Ok (tt, {| context := upd (context st2); trace := trace st2 ++ [ev] |}) ->
  exists evs,
    returns (MergeImportRef new_inst_id prev_inst_id) st tt evs
            (upd (context st2))
    /\ select is_DiagnoseDuplicateName evs = select is_DiagnoseDuplicateName [ev]
    /\ select is_MergeFunctionRedecl evs = select is_MergeFunctionRedecl [ev]
    /\ select is_TODO evs = select is_TODO [ev].
Proof.
  intros H1 H2 Hd.
  destruct (MergeImportRef_resolved _ _ _ _ _ _ _ H1 H2)
    as (Hrun & pre & Htr & Hdup & Hmerge & Htodo).
  exists (pre ++ [ev]). unfold returns.
  rewrite Hrun, Hd, Htr, <- app_assoc, !select_app, Hdup, Hmerge, Htodo.
  auto.
Qed.

(** C1, amended: when both resolver calls return and at least one of
    them returns "not mergeable", [MergeImportRef] returns (no abort)
    after exactly one [DiagnoseDuplicateName] call, made with the new and
    the previous id; it calls neither [MergeFunctionRedecl] nor [TODO]. *)
Theorem MergeImportRef_not_mergeable (new_inst_id prev_inst_id : InstId)
    (st st1 st2 : State) (r1 r2 : option InstForMerge) :
  ResolveMergeableInst new_inst_id st = Ok (r1, st1) ->
  ResolveMergeableInst prev_inst_id st1 = Ok (r2, st2) ->
  r1 = None \/ r2 = None ->
  exists evs,
    returns (MergeImportRef new_inst_id prev_inst_id) st tt evs
            (DiagnoseDuplicateName_update new_inst_id prev_inst_id
               (context st2))
    /\ select is_DiagnoseDuplicateName evs
       = [CallDiagnoseDuplicateName new_inst_id prev_inst_id]
    /\ select is_MergeFunctionRedecl evs = []
    /\ select is_TODO evs = [].
Proof.
  intros H1 H2 Hnone.
  apply (MergeImportRef_one_call _ _ _ _ _ _ _
           (CallDiagnoseDuplicateName new_inst_id prev_inst_id)
           (DiagnoseDuplicateName_update new_inst_id prev_inst_id) H1 H2).
  destruct Hnone as [-> | ->]; [|destruct r1]; reflexivity.
Qed.

(** C6: when both resolver calls return an instruction and the two
    instructions differ in kind, [MergeImportRef] returns after exactly
    one [DiagnoseDuplicateName] call, made with the new and the previous
    id; it calls neither [MergeFunctionRedecl] nor [TODO]. *)
Theorem MergeImportRef_kind_mismatch (new_inst_id prev_inst_id : InstId)
    (st st1 st2 : State) (new_inst prev_inst : InstForMerge) :
  ResolveMergeableInst new_inst_id st = Ok (Some new_inst, st1) ->
  ResolveMergeableInst prev_inst_id st1 = Ok (Some prev_inst, st2) ->
  kind (inst new_inst) <> kind (inst prev_inst) ->
  exists evs,
    returns (MergeImportRef new_inst_id prev_inst_id) st tt evs
            (DiagnoseDuplicateName_update new_inst_id prev_inst_id
               (context st2))
    /\ select is_DiagnoseDuplicateName evs
       = [CallDiagnoseDuplicateName new_inst_id prev_inst_id]
    /\ select is_MergeFunctionRedecl evs = []
    /\ select is_TODO evs = [].
Proof.
  intros H1 H2 Hkind.
  apply (MergeImportRef_one_call _ _ _ _ _ _ _
           (CallDiagnoseDuplicateName new_inst_id prev_inst_id)
           (DiagnoseDuplicateName_update new_inst_id prev_inst_id) H1 H2).
  unfold MergeImportRef_dispatch.
  rewrite bool_decide_false by exact Hkind. reflexivity.
Qed.

(** C7: when both resolver calls return an instruction of kind
    [FunctionDecl], [MergeImportRef] returns after exactly one
    [MergeFunctionRedecl] call, whose arguments are the location of the
    new id, the function of the new declaration, [new_is_import = true],
    [new_is_definition = false], the function id of the previous
    declaration and the [import_ir_inst_id] of the previous resolution;
    it calls neither [DiagnoseDuplicateName] nor [TODO]. *)
Theorem MergeImportRef_FunctionDecl (new_inst_id prev_inst_id : InstId)
    (st st1 st2 : State) (new_inst prev_inst : InstForMerge) :
  ResolveMergeableInst new_inst_id st = Ok (Some new_inst, st1) ->
  ResolveMergeableInst prev_inst_id st1 = Ok (Some prev_inst, st2) ->
  kind (inst new_inst) = FunctionDecl_Kind ->
  kind (inst prev_inst) = FunctionDecl_Kind ->
  exists new_function_id prev_function_id evs,
    inst new_inst = FunctionDecl new_function_id
    /\ inst prev_inst = FunctionDecl prev_function_id
    /\ let new_fn := functions (context st2) new_function_id in
       let loc_id := loc_ids (context st2) new_inst_id in
       returns (MergeImportRef new_inst_id prev_inst_id) st tt evs
         (MergeFunctionRedecl_update loc_id new_fn true false
            prev_function_id (import_ir_inst_id prev_inst) (context st2))
       /\ select is_MergeFunctionRedecl evs
          = [CallMergeFunctionRedecl loc_id new_fn true false
               prev_function_id (import_ir_inst_id prev_inst)]
       /\ select is_DiagnoseDuplicateName evs = []
       /\ select is_TODO evs = [].
Proof.
  intros H1 H2 Hnew Hprev.
  destruct new_inst as [ni nimp], prev_inst as [pi pimp]. simpl in *.
  destruct ni as [| | |new_function_id|]; try discriminate.
  destruct pi as [| | |prev_function_id|]; try discriminate.
  exists new_function_id, prev_function_id.
  destruct (MergeImportRef_one_call _ _ _ _ _ _ _
           (CallMergeFunctionRedecl (loc_ids (context st2) new_inst_id)
              (functions (context st2) new_function_id) true false
              prev_function_id pimp)
           (MergeFunctionRedecl_update (loc_ids (context st2) new_inst_id)
              (functions (context st2) new_function_id) true false
              prev_function_id pimp) H1 H2)
    as (evs & Hret & Hdup & Hmerge & Htodo); [reflexivity|].
  exists evs. split; [reflexivity|]. split; [reflexivity|]. simpl. auto.
Qed.

(** C8: when both resolver calls return an instruction, the two kinds
    agree and are not [FunctionDecl], [MergeImportRef] returns after
    exactly one [TODO] call, made with the new id and the message
    "Merging not yet supported."; it calls neither [MergeFunctionRedecl]
    nor [DiagnoseDuplicateName].  Two [Namespace] instructions are such a
    pair. *)
Theorem MergeImportRef_unsupported_kind (new_inst_id prev_inst_id : InstId)
    (st st1 st2 : State) (new_inst prev_inst : InstForMerge) :
  ResolveMergeableInst new_inst_id st = Ok (Some new_inst, st1) ->
  ResolveMergeableInst prev_inst_id st1 = Ok (Some prev_inst, st2) ->
  kind (inst new_inst) = kind (inst prev_inst) ->
  kind (inst new_inst) <> FunctionDecl_Kind ->
  (exists evs,
     returns (MergeImportRef new_inst_id prev_inst_id) st tt evs
       (TODO_update new_inst_id "Merging not yet supported." (context st2))
     /\ select is_TODO evs
        = [CallTODO new_inst_id "Merging not yet supported."]
     /\ select is_MergeFunctionRedecl evs = []
     /\ select is_DiagnoseDuplicateName evs = [])
  /\ (kind (insts (context st) new_inst_id) = Namespace_Kind ->
      kind (insts (context st) prev_inst_id) = Namespace_Kind ->
      returns (MergeImportRef new_inst_id prev_inst_id) st tt
        [CallTODO new_inst_id "Merging not yet supported."]
        (TODO_update new_inst_id "Merging not yet supported." (context st))).
Proof.
  intros H1 H2 Hsame Hnot.
  assert (MergeImportRef_dispatch new_inst_id prev_inst_id
            (Some new_inst) (Some prev_inst) st2
          = Ok (tt, {| context := TODO_update new_inst_id
                                    "Merging not yet supported." (context st2);
                       trace := trace st2
                                ++ [CallTODO new_inst_id
                                      "Merging not yet supported."] |}))
    as Hd.
  { unfold MergeImportRef_dispatch.
    rewrite bool_decide_true by exact Hsame. simpl.
    destruct (inst new_inst); simpl in *; try reflexivity. congruence. }
  split.
  - destruct (MergeImportRef_one_call _ _ _ _ _ _ _ _ _ H1 H2 Hd)
      as (evs & Hret & Hdup & Hmerge & Htodo).
    exists evs. auto.
  - intros Hn Hp.
    pose proof (Namespace_arm_returns new_inst_id st Hn) as Hr1.
    rewrite Hr1 in H1. inversion H1; subst st1.
    pose proof (Namespace_arm_returns prev_inst_id st Hp) as Hr2.
    rewrite Hr2 in H2. inversion H2; subst st2.
    destruct (MergeImportRef_resolved _ _ _ _ _ _ _ Hr1 Hr2) as (Hrun & _).
    unfold returns. rewrite Hrun.
    subst new_inst prev_inst. exact Hd.
Qed.

(** Every returning dispatch logs exactly one collaborator call, and a
    [MergeFunctionRedecl] call among them has [new_is_import = true] and
    [new_is_definition = false]. *)
Lemma MergeImportRef_dispatch_returns (new_inst_id prev_inst_id : InstId)
    (r1 r2 : option InstForMerge) (st2 st' : State) :
  MergeImportRef_dispatch new_inst_id prev_inst_id r1 r2 st2 = Ok (tt, st') ->
  exists ev,
    trace st' = trace st2 ++ [ev]
    /\ forall loc fn imp def pf pimp,
         ev = CallMergeFunctionRedecl loc fn imp def pf pimp ->
         imp = true /\ def = false.
Proof.
  unfold MergeImportRef_dispatch, DiagnoseDuplicateName, TODO,
    MergeFunctionRedecl. run_M.
  intros Hrun.
  destruct r1 as [n|], r2 as [p|]; simpl in Hrun;
    try (inversion Hrun; subst; simpl; eexists; split;
         [reflexivity | intros; congruence]).
  destruct (negb (bool_decide (kind (inst n) = kind (inst p))));
    simpl in Hrun;
    try (inversion Hrun; subst; simpl; eexists; split;
         [reflexivity | intros; congruence]).
  destruct (TryAs_FunctionDecl (inst n)); simpl in Hrun;
    try (inversion Hrun; subst; simpl; eexists; split;
         [reflexivity | intros; congruence]).
  destruct (TryAs_FunctionDecl (inst p)); simpl in Hrun;
    [|discriminate].
  inversion Hrun; subst; simpl. eexists; split; [reflexivity|].
  intros loc fn imp def pf pimp Hev. inversion Hev; subst. auto.
Qed.

(** A returning run of the orchestrator went through both resolver calls
    and the dispatch. *)
Lemma MergeImportRef_returns_inv (new_inst_id prev_inst_id : InstId)
    (st st' : State) :
  MergeImportRef new_inst_id prev_inst_id st = Ok (tt, st') ->
  exists r1 st1 r2 st2,
    ResolveMergeableInst new_inst_id st = Ok (r1, st1)
    /\ ResolveMergeableInst prev_inst_id st1 = Ok (r2, st2)
    /\ MergeImportRef_dispatch new_inst_id prev_inst_id r1 r2 st2
       = Ok (tt, st').
Proof.
  unfold MergeImportRef, bind. intros Hrun.
  destruct (ResolveMergeableInst new_inst_id st) as [[r1 st1]|] eqn:H1;
    [|discriminate].
  destruct (ResolveMergeableInst prev_inst_id st1) as [[r2 st2]|] eqn:H2;
    [|discriminate].
  exists r1, st1, r2, st2. auto.
Qed.

(** C2, amended: when the new and the previous instruction are both local
    [FunctionDecl]s, [ResolvePrevInstForMerge] returns the previous
    instruction itself with the invalid [ImportIRInstId], logging
    nothing, but [MergeImportRef] aborts in [ResolveMergeableInst] on the
    new id with "Unexpected inst kind passed to ResolveMergeableInst: ",
    so it calls no [MergeFunctionRedecl].  Whenever [MergeImportRef] does
    call [MergeFunctionRedecl], [new_is_import] is [true]. *)
Theorem MergeImportRef_local_FunctionDecl
    (node_id : NodeId) (new_inst_id prev_inst_id : InstId) (st : State)
    (new_function_id prev_function_id : FunctionId) :
  insts (context st) new_inst_id = FunctionDecl new_function_id ->
  insts (context st) prev_inst_id = FunctionDecl prev_function_id ->
  returns (ResolvePrevInstForMerge node_id prev_inst_id) st
    {| inst := FunctionDecl prev_function_id;
       import_ir_inst_id := ImportIRInstId_Invalid |}
    [] (context st)
  /\ aborts (MergeImportRef new_inst_id prev_inst_id) st
       Unexpected_inst_kind (FunctionDecl new_function_id)
  /\ forall (new_id prev_id : InstId) (st0 : State) evs c',
       returns (MergeImportRef new_id prev_id) st0 tt evs c' ->
       forall loc fn imp def pf pimp,
         In (CallMergeFunctionRedecl loc fn imp def pf pimp) evs ->
         imp = true.
Proof.
  intros Hnew Hprev. split; [|split].
  - pose proof (ResolvePrevInstForMerge_run node_id prev_inst_id st) as Hrun.
    simpl in Hrun. rewrite Hprev in Hrun. exact Hrun.
  - pose proof (ResolveMergeableInst_run new_inst_id st) as Hrun.
    simpl in Hrun. rewrite Hnew in Hrun. simpl in Hrun.
    unfold aborts in *. unfold MergeImportRef, bind. rewrite Hrun.
    reflexivity.
  - intros new_id prev_id st0 evs c' Hret loc fn imp def pf pimp Hin.
    unfold returns in Hret.
    apply MergeImportRef_returns_inv in Hret
      as (r1 & st1 & r2 & st2 & H1 & H2 & Hd).
    apply ResolveMergeableInst_returns in H1 as (_ & Ht1 & _).
    apply ResolveMergeableInst_returns in H2 as (_ & Ht2 & _).
    apply MergeImportRef_dispatch_returns in Hd as (ev & Htr & Hflag).
    simpl in Htr. rewrite Ht2, Ht1, <- !app_assoc in Htr.
    apply app_inv_head in Htr. subst evs.
    apply in_app_or in Hin as [Hin|Hin].
    { destruct (insts (context st0) new_id); simpl in Hin;
        intuition discriminate. }
    apply in_app_or in Hin as [Hin|Hin].
    { destruct (insts (context st1) prev_id); simpl in Hin;
        intuition discriminate. }
    destruct Hin as [Hev|[]].
    apply Hflag in Hev. tauto.
Qed.

End Orchestrator.

(** ** The theorems on the concrete session *)

Module OnExample.
Import Example.

Lemma MergeImportRef_not_mergeable_witness :
  exists evs,
    returns (MergeImportRef 4 0) example_state tt evs example_context
    /\ select is_DiagnoseDuplicateName evs = [CallDiagnoseDuplicateName 4 0]
    /\ select is_MergeFunctionRedecl evs = []
    /\ select is_TODO evs = [].
Proof.
  exact (MergeImportRef_not_mergeable 4 0 example_state
           {| context := example_context; trace := [ConstantValuesGet 4] |}
           {| context := example_context;
              trace := [ConstantValuesGet 4; ConstantValuesGet 0] |}
           None
           (Some {| inst := FunctionDecl 1; import_ir_inst_id := 40 |})
           eq_refl eq_refl (or_introl eq_refl)).
Defined.

(** C1 as stated fails: the resolver returns "not mergeable" for the new
    id 4 (an imported variable), yet with the local function 3 as the
    previous id [MergeImportRef] aborts in the second resolver call
    instead of diagnosing a duplicate name. *)
Lemma MergeImportRef_not_mergeable_counterexample :
  ResolveMergeableInst 4 example_state
  = Ok (None, {| context := example_context;
                 trace := [ConstantValuesGet 4] |})
  /\ aborts (MergeImportRef 4 3) example_state
       Unexpected_inst_kind (FunctionDecl 3)
  /\ ~ (exists evs c',
          returns (MergeImportRef 4 3) example_state tt evs c'
          /\ select is_DiagnoseDuplicateName evs
             = [CallDiagnoseDuplicateName 4 3]).
Proof.
  split; [reflexivity|]. split; [reflexivity|].
  intros (evs & c' & Hret & _). unfold returns in Hret.
  vm_compute in Hret. discriminate.
Qed.

Lemma MergeImportRef_local_FunctionDecl_witness :
  returns (ResolvePrevInstForMerge 55 3) example_state
    {| inst := FunctionDecl 3; import_ir_inst_id := ImportIRInstId_Invalid |}
    [] example_context
  /\ aborts (MergeImportRef 13 3) example_state
       Unexpected_inst_kind (FunctionDecl 4).
Proof.
  destruct (MergeImportRef_local_FunctionDecl 55 13 3 example_state 4 3
              eq_refl eq_refl) as (Hprev & Habort & _).
  split; [exact Hprev | exact Habort].
Defined.

(** C2 as stated fails: with the local function declarations 13 (new) and
    3 (previous), [MergeImportRef] does not return, and so makes no
    [MergeFunctionRedecl] call; and on the import references 1 and 0 to
    function declarations it passes [new_is_import = true]. *)
Lemma MergeImportRef_local_FunctionDecl_counterexample :
  insts example_context 13 = FunctionDecl 4
  /\ insts example_context 3 = FunctionDecl 3
  /\ MergeImportRef 13 3 example_state
     = Fatal Unexpected_inst_kind (FunctionDecl 4)
  /\ ~ (exists evs c' loc fn imp def pf pimp,
          returns (MergeImportRef 13 3) example_state tt evs c'
          /\ select is_MergeFunctionRedecl evs
             = [CallMergeFunctionRedecl loc fn imp def pf pimp])
  /\ returns (MergeImportRef 1 0) example_state tt
       [CallLoadImportRef 1 LocId_Invalid; ConstantValuesGet 1;
        ConstantValuesGet 0;
        CallMergeFunctionRedecl 1001 {| name_id := 102; decl_id := 2 |}
          true false 1 40]
       loaded_context.
Proof.
  split; [reflexivity|]. split; [reflexivity|]. split; [reflexivity|].
  split; [|reflexivity].
  intros (evs & c' & loc & fn & imp & def & pf & pimp & Hret & _).
  unfold returns in Hret. vm_compute in Hret. discriminate.
Qed.

Lemma ResolveMergeableInst_fatal_outside_precondition_witness :
  (aborts (ResolveMergeableInst 3) example_state
          Unexpected_inst_kind (FunctionDecl 3)
   /\ forall r st', ResolveMergeableInst 3 example_state <> Ok (r, st'))
  /\ ((exists r st', ResolveMergeableInst 1 example_state = Ok (r, st'))
      /\ forall msg subject,
           ~ aborts (ResolveMergeableInst 1) example_state msg subject).
Proof.
  split.
  - apply (proj1 (ResolveMergeableInst_fatal_outside_precondition
                    3 example_state)); discriminate.
  - apply (proj2 (ResolveMergeableInst_fatal_outside_precondition
                    1 example_state)).
    left. reflexivity.
Defined.

Lemma ResolveMergeableInst_Namespace_witness :
  ResolveMergeableInst 2 example_state
  = Ok (Some {| inst := Namespace 5;
                import_ir_inst_id := ImportIRInstId_Invalid |},
        example_state).
Proof.
  apply (proj1 (ResolveMergeableInst_Namespace 2 example_state eq_refl)).
Defined.

Lemma ResolvePrevInstForMerge_ImportRefUsed_witness :
  exists evs,
    returns (ResolvePrevInstForMerge 55 0) example_state
      {| inst := FunctionDecl 1; import_ir_inst_id := 40 |}
      evs example_context
    /\ select is_Emit evs = [Emit (RedeclOfUsedImport_diagnostic 55 7)]
    /\ diagnostic_level (RedeclOfUsedImport_diagnostic 55 7) = Error
    /\ map (fun n => (Level (message_base n), message_loc n))
           (notes (RedeclOfUsedImport_diagnostic 55 7))
       = [(Note, AtLoc 7)]
    /\ select is_LoadImportRef evs = [].
Proof.
  exact (ResolvePrevInstForMerge_ImportRefUsed 55 0 example_state 40 7
           eq_refl).
Defined.

Lemma ResolvePrevInstForMerge_ImportRefUnloaded_witness :
  returns (ResolvePrevInstForMerge 55 1) example_state
    {| inst := example_insts InstId_Invalid; import_ir_inst_id := 41 |}
    [ConstantValuesGet 1] example_context
  /\ (exists r,
        returns (ResolveMergeableInst 1) example_state r
          [CallLoadImportRef 1 LocId_Invalid; ConstantValuesGet 1]
          loaded_context).
Proof.
  destruct (ResolvePrevInstForMerge_ImportRefUnloaded 55 1 example_state 41
              eq_refl) as (Hprev & Hload & _).
  split; [exact Hprev | exact Hload].
Defined.

Lemma MergeImportRef_kind_mismatch_witness :
  exists evs,
    returns (MergeImportRef 0 6) example_state tt evs example_context
    /\ select is_DiagnoseDuplicateName evs = [CallDiagnoseDuplicateName 0 6]
    /\ select is_MergeFunctionRedecl evs = []
    /\ select is_TODO evs = [].
Proof.
  exact (MergeImportRef_kind_mismatch 0 6 example_state
           {| context := example_context; trace := [ConstantValuesGet 0] |}
           {| context := example_context;
              trace := [ConstantValuesGet 0; ConstantValuesGet 6] |}
           {| inst := FunctionDecl 1; import_ir_inst_id := 40 |}
           {| inst := OtherInst 20 0 0; import_ir_inst_id := 46 |}
           eq_refl eq_refl ltac:(discriminate)).
Defined.

Lemma MergeImportRef_FunctionDecl_witness :
  exists new_function_id prev_function_id evs,
    FunctionDecl 2 = FunctionDecl new_function_id
    /\ FunctionDecl 1 = FunctionDecl prev_function_id
    /\ returns (MergeImportRef 1 0) example_state tt evs loaded_context
    /\ select is_MergeFunctionRedecl evs
       = [CallMergeFunctionRedecl 1001
            (functions loaded_context new_function_id) true false
            prev_function_id 40]
    /\ select is_DiagnoseDuplicateName evs = []
    /\ select is_TODO evs = [].
Proof.
  exact (MergeImportRef_FunctionDecl 1 0 example_state
           {| context := loaded_context;
              trace := [CallLoadImportRef 1 LocId_Invalid;
                        ConstantValuesGet 1] |}
           {| context := loaded_context;
              trace := [CallLoadImportRef 1 LocId_Invalid;
                        ConstantValuesGet 1; ConstantValuesGet 0] |}
           {| inst := FunctionDecl 2; import_ir_inst_id := 41 |}
           {| inst := FunctionDecl 1; import_ir_inst_id := 40 |}
           eq_refl eq_refl eq_refl eq_refl).
Defined.

Lemma MergeImportRef_unsupported_kind_witness :
  (exists evs,
     returns (MergeImportRef 2 8) example_state tt evs example_context
     /\ select is_TODO evs = [CallTODO 2 "Merging not yet supported."]
     /\ select is_MergeFunctionRedecl evs = []
     /\ select is_DiagnoseDuplicateName evs = [])
  /\ returns (MergeImportRef 2 8) example_state tt
       [CallTODO 2 "Merging not yet supported."] example_context.
Proof.
  destruct (MergeImportRef_unsupported_kind 2 8 example_state
              example_state example_state
              {| inst := Namespace 5;
                 import_ir_inst_id := ImportIRInstId_Invalid |}
              {| inst := Namespace 6;
                 import_ir_inst_id := ImportIRInstId_Invalid |}
              eq_refl eq_refl eq_refl ltac:(discriminate))
    as (Hall & Hns).
  split; [exact Hall | exact (Hns eq_refl eq_refl)].
Defined.

Lemma ReplacePrevInstForMerge_overwrites_only_witness :
  exists st',
    ReplacePrevInstForMerge 0 100 13 example_state = Ok (tt, st')
    /\ trace st' = []
    /\ dom (names (name_scopes (context st') 0)) = dom example_names
    /\ (is_Some (example_names !! 100) ->
        names (name_scopes (context st') 0) = <[100 := 13]> example_names
        /\ names (name_scopes (context st') 0) !! 100 = Some 13
        /\ (forall s, s <> 0 ->
              name_scopes (context st') s = name_scopes example_context s)
        /\ insts (context st') = insts example_context
        /\ loc_ids (context st') = loc_ids example_context
        /\ constant_values (context st') = constant_values example_context
        /\ functions (context st') = functions example_context)
    /\ (example_names !! 100 = None -> st' = example_state).
Proof.
  exact (ReplacePrevInstForMerge_overwrites_only 0 100 13 example_state).
Defined.

End OnExample.

(** ** Further properties of the two resolvers *)

Section ResolverProperties.
Context `{Collaborators}.

(** An accepted instruction is an import reference or a [Namespace]. *)
Lemma accepted_kind_cases (i : Inst) :
  is_import_ref_or_namespace (kind i) = true ->
  (exists imp, i = ImportRefUnloaded imp)
  \/ (exists imp used_id, i = ImportRefUsed imp used_id)
  \/ (exists ns, i = Namespace ns).
Proof. destruct i; simpl; try discriminate; eauto. Qed.

(** Every returning run of the resolver, with its result. *)
Lemma ResolveMergeableInst_run_result (id : InstId) (st : State) :
  let i := insts (context st) id in
  let c' := resolver_context i id (context st) in
  is_import_ref_or_namespace (kind i) = true ->
  returns (ResolveMergeableInst id) st (resolver_result c' i id)
          (resolver_events i id) c'.
Proof.
  intros i c' Hpre. subst c'. unfold returns, ResolveMergeableInst. run_M.
  fold i. destruct (accepted_kind_cases i Hpre)
    as [(imp & Hi) | [(imp & used_id & Hi) | (ns & Hi)]];
    rewrite Hi; simpl.
  - unfold LoadImportRef, ResolveMergeableInst_follow, resolver_result.
    run_M.
    destruct (constant_values (LoadImportRef_update id LocId_Invalid
                                 (context st)) id);
      simpl; rewrite <- app_assoc; reflexivity.
  - unfold ResolveMergeableInst_follow, resolver_result. run_M.
    destruct (constant_values (context st) id); reflexivity.
  - rewrite trace_nil_r. reflexivity.
Qed.

(** The same, read backwards from a returned result. *)
Lemma ResolveMergeableInst_returned (id : InstId) (st st' : State)
    (r : option InstForMerge) :
  ResolveMergeableInst id st = Ok (r, st') ->
  let i := insts (context st) id in
  is_import_ref_or_namespace (kind i) = true
  /\ context st' = resolver_context i id (context st)
  /\ trace st' = trace st ++ resolver_events i id
  /\ r = resolver_result (context st') i id.
Proof.
  intros Hrun i.
  destruct (ResolveMergeableInst_returns id st st' r Hrun) as (Hpre & Htr & Hc).
  fold i in Hpre, Htr, Hc.
  pose proof (ResolveMergeableInst_run_result id st Hpre) as Hres.
  unfold returns in Hres. fold i in Hres. rewrite Hres in Hrun.
  inversion Hrun; subst. auto.
Qed.

(** X1: on a previous instruction that is not an import reference,
    [ResolvePrevInstForMerge] returns that instruction with the invalid
    [ImportIRInstId] and leaves the whole state as it is: nothing is
    emitted, the constant-value table is not queried. *)
Theorem ResolvePrevInstForMerge_not_imported
    (node_id : NodeId) (prev_inst_id : InstId) (st : State) :
  kind (insts (context st) prev_inst_id) <> ImportRefUnloaded_Kind ->
  kind (insts (context st) prev_inst_id) <> ImportRefUsed_Kind ->
  ResolvePrevInstForMerge node_id prev_inst_id st
  = Ok ({| inst := insts (context st) prev_inst_id;
           import_ir_inst_id := ImportIRInstId_Invalid |}, st).
Proof.
  intros Hu Hd.
  pose proof (ResolvePrevInstForMerge_run node_id prev_inst_id st) as Hrun.
  unfold returns in Hrun. simpl in Hrun. rewrite Hrun.
  unfold candidate_result, candidate_events.
  destruct (insts (context st) prev_inst_id); simpl in *;
    try congruence; rewrite trace_nil_r; reflexivity.
Qed.

(** X2: [ResolvePrevInstForMerge] returns on every instruction id, never
    changes the stores and never calls [LoadImportRef],
    [DiagnoseDuplicateName], [MergeFunctionRedecl] or [TODO]; it emits
    at most one diagnostic, and emits one exactly when the previous
    instruction is an [ImportRefUsed]. *)
Theorem ResolvePrevInstForMerge_diagnoses_iff_used
    (node_id : NodeId) (prev_inst_id : InstId) (st : State) :
  exists r evs,
    returns (ResolvePrevInstForMerge node_id prev_inst_id) st r evs
            (context st)
    /\ (select is_Emit evs <> []
        <-> kind (insts (context st) prev_inst_id) = ImportRefUsed_Kind)
    /\ (length (select is_Emit evs) <= 1)%nat
    /\ select is_LoadImportRef evs = []
    /\ select is_decision_call evs = [].
Proof.
  eexists. eexists. split; [apply ResolvePrevInstForMerge_run|].
  destruct (insts (context st) prev_inst_id); simpl;
    repeat split; intros; try congruence; auto.
Qed.

(** X3: on an [ImportRefUnloaded], [ResolveMergeableInst] calls
    [LoadImportRef] once, with the id and [LocId::Invalid], before it
    queries the constant value; the constant value and the instruction
    it designates are read from the stores the loader left, while the
    [import_ir_inst_id] returned is the one the reference carried before
    the load. *)
Theorem ResolveMergeableInst_loads_then_reads
    (id : InstId) (st : State) (imp : ImportIRInstId) :
  insts (context st) id = ImportRefUnloaded imp ->
  let c' := LoadImportRef_update id LocId_Invalid (context st) in
  returns (ResolveMergeableInst id) st
    match constant_values c' id with
    | NotConstant => None
    | Constant target =>
        Some {| inst := insts c' target; import_ir_inst_id := imp |}
    end
    [CallLoadImportRef id LocId_Invalid; ConstantValuesGet id] c'.
Proof.
  intros Hi c'.
  pose proof (ResolveMergeableInst_run_result id st) as Hrun.
  simpl in Hrun. rewrite Hi in Hrun. apply Hrun. reflexivity.
Qed.

(** X4: when [ResolveMergeableInst] returns, it returns "not mergeable"
    exactly when the instruction is an import reference whose constant
    value, in the stores it leaves, is non-constant; otherwise the
    result is the [Namespace] itself or the instruction the constant
    value designates in those stores.  The stores are those it was
    given unless the instruction was an [ImportRefUnloaded]. *)
Theorem ResolveMergeableInst_not_mergeable_iff
    (id : InstId) (st st' : State) (r : option InstForMerge) :
  ResolveMergeableInst id st = Ok (r, st') ->
  let i := insts (context st) id in
  (r = None
   <-> kind i <> Namespace_Kind
       /\ constant_values (context st') id = NotConstant)
  /\ (forall m, r = Some m ->
        (kind i = Namespace_Kind /\ inst m = i
         /\ import_ir_inst_id m = ImportIRInstId_Invalid)
        \/ (exists target,
              constant_values (context st') id = Constant target
              /\ inst m = insts (context st') target
              /\ TryAs_AnyImportRef i = Some (import_ir_inst_id m)))
  /\ (kind i <> ImportRefUnloaded_Kind -> context st' = context st).
Proof.
  intros Hrun i.
  destruct (ResolveMergeableInst_returned id st st' r Hrun)
    as (Hpre & Hc & _ & Hr).
  fold i in Hpre, Hc, Hr. subst r. unfold resolver_result.
  destruct (accepted_kind_cases i Hpre)
    as [(imp & Hi) | [(imp & used_id & Hi) | (ns & Hi)]];
    rewrite Hi in *; simpl in *.
  - destruct (constant_values (context st') id) as [|target] eqn:Hcv.
    + repeat split; intros; try congruence.
    + split; [|split].
      * split; [discriminate|]. intros [_ Hno]. discriminate.
      * intros m Hm. inversion Hm; subst. right. exists target. auto.
      * congruence.
  - destruct (constant_values (context st') id) as [|target] eqn:Hcv.
    + repeat split; intros; try congruence.
    + split; [|split].
      * split; [discriminate|]. intros [_ Hno]. discriminate.
      * intros m Hm. inversion Hm; subst. right. exists target. auto.
      * auto.
  - split; [|split].
    + split; [discriminate|]. intros [Hno _]. congruence.
    + intros m Hm. inversion Hm; subst. left. auto.
    + auto.
Qed.

(** X5: on an [ImportRefUsed] whose constant value is a constant, the two
    resolvers agree: [ResolveMergeableInst] returns the very
    [InstForMerge] that [ResolvePrevInstForMerge] returns, neither
    touches the stores, and they differ only in the diagnostic that
    [ResolvePrevInstForMerge] emits. *)
Theorem resolvers_agree_on_used_constant
    (node_id : NodeId) (id : InstId) (st : State)
    (imp : ImportIRInstId) (used_id : LocId) (target : InstId) :
  insts (context st) id = ImportRefUsed imp used_id ->
  constant_values (context st) id = Constant target ->
  let m := {| inst := insts (context st) target;
              import_ir_inst_id := imp |} in
  returns (ResolveMergeableInst id) st (Some m)
    [ConstantValuesGet id] (context st)
  /\ returns (ResolvePrevInstForMerge node_id id) st m
       [Emit (RedeclOfUsedImport_diagnostic node_id used_id);
        ConstantValuesGet id] (context st).
Proof.
  intros Hi Hcv m. split.
  - pose proof (ResolveMergeableInst_run_result id st) as Hrun.
    simpl in Hrun. rewrite Hi in Hrun. unfold resolver_result in Hrun.
    simpl in Hrun. rewrite Hcv in Hrun. apply Hrun. reflexivity.
  - pose proof (ResolvePrevInstForMerge_run node_id id st) as Hrun.
    simpl in Hrun. rewrite Hi in Hrun. unfold candidate_result in Hrun.
    simpl in Hrun. rewrite Hcv in Hrun. exact Hrun.
Qed.

End ResolverProperties.

(** ** Further properties of the Merge Orchestrator *)

Section OrchestratorProperties.
Context `{Collaborators}.

(** The resolver logs no decision call and no diagnostic. *)
Lemma resolver_events_quiet (i : Inst) (id : InstId) (e : Event) :
  In e (resolver_events i id) ->
  is_decision_call e = false /\ is_Emit e = false.
Proof.
  destruct i; simpl; intros Hin;
    repeat (destruct Hin as [<- | Hin]; [split; reflexivity|]);
    destruct Hin.
Qed.

Lemma select_resolver_events (i : Inst) (id : InstId) :
  select is_decision_call (resolver_events i id) = []
  /\ select is_Emit (resolver_events i id) = [].
Proof. destruct i; split; reflexivity. Qed.

(** The decision table of lines 93-123: the dispatch always returns,
    after one call that the two resolutions determine. *)
Lemma MergeImportRef_dispatch_cases (new_inst_id prev_inst_id : InstId)
    (r1 r2 : option InstForMerge) (st2 : State) :
  exists ev st',
    MergeImportRef_dispatch new_inst_id prev_inst_id r1 r2 st2 = Ok (tt, st')
    /\ trace st' = trace st2 ++ [ev]
    /\ ((ev = CallDiagnoseDuplicateName new_inst_id prev_inst_id
         /\ (r1 = None \/ r2 = None
             \/ exists n p, r1 = Some n /\ r2 = Some p
                            /\ kind (inst n) <> kind (inst p)))
        \/ (exists n p nf pf,
              r1 = Some n /\ r2 = Some p
              /\ inst n = FunctionDecl nf /\ inst p = FunctionDecl pf
              /\ ev = CallMergeFunctionRedecl
                        (loc_ids (context st2) new_inst_id)
                        (functions (context st2) nf) true false pf
                        (import_ir_inst_id p))
        \/ (exists n p,
              r1 = Some n /\ r2 = Some p
              /\ kind (inst n) = kind (inst p)
              /\ kind (inst n) <> FunctionDecl_Kind
              /\ ev = CallTODO new_inst_id "Merging not yet supported.")).
Proof.
  unfold MergeImportRef_dispatch, DiagnoseDuplicateName, TODO,
    MergeFunctionRedecl.
  destruct r1 as [n|], r2 as [p|];
    try (run_M; eexists; eexists; split; [reflexivity|];
         split; [reflexivity|]; left; split; [reflexivity|]; auto; fail).
  destruct (decide (kind (inst n) = kind (inst p))) as [Hsame|Hdiff].
  - rewrite bool_decide_true by exact Hsame. simpl.
    destruct (inst n) as [| | |nf|] eqn:Hn; simpl in *;
      try (run_M; eexists; eexists; split; [reflexivity|];
           split; [reflexivity|]; right; right; exists n, p;
           rewrite Hn; simpl; repeat split; auto; discriminate).
    destruct (inst p) as [| | |pf|] eqn:Hp; simpl in *; try discriminate.
    run_M. eexists; eexists. split; [reflexivity|]. split; [reflexivity|].
    right; left. exists n, p, nf, pf. auto.
  - rewrite bool_decide_false by exact Hdiff. run_M.
    eexists; eexists. split; [reflexivity|]. split; [reflexivity|].
    left. split; [reflexivity|]. right; right. eauto.
Qed.

(** Every run of the orchestrator: it aborts in the first resolver call
    that meets an instruction outside the precondition, the previous id
    being read from the stores the first call left; otherwise it returns
    after the events of the two resolver calls, new id first, and one
    decision call. *)
Lemma MergeImportRef_run (new_inst_id prev_inst_id : InstId) (st : State) :
  let i1 := insts (context st) new_inst_id in
  let c1 := resolver_context i1 new_inst_id (context st) in
  let i2 := insts c1 prev_inst_id in
  if is_import_ref_or_namespace (kind i1)
  then
    if is_import_ref_or_namespace (kind i2)
    then exists ev st',
        MergeImportRef new_inst_id prev_inst_id st = Ok (tt, st')
        /\ trace st'
           = trace st ++ resolver_events i1 new_inst_id
               ++ resolver_events i2 prev_inst_id ++ [ev]
        /\ is_decision_call ev = true
    else aborts (MergeImportRef new_inst_id prev_inst_id) st
           Unexpected_inst_kind i2
  else aborts (MergeImportRef new_inst_id prev_inst_id) st
         Unexpected_inst_kind i1.
Proof.
  intros i1 c1 i2.
  pose proof (ResolveMergeableInst_run new_inst_id st) as Hnew.
  simpl in Hnew. fold i1 in Hnew. fold c1 in Hnew.
  destruct (is_import_ref_or_namespace (kind i1)).
  - destruct Hnew as (r1 & Hr1). unfold returns in Hr1.
    set (st1 := {| context := c1;
                   trace := trace st ++ resolver_events i1 new_inst_id |})
      in Hr1.
    pose proof (ResolveMergeableInst_run prev_inst_id st1) as Hprev.
    simpl in Hprev. fold i2 in Hprev.
    destruct (is_import_ref_or_namespace (kind i2)).
    + destruct Hprev as (r2 & Hr2). unfold returns in Hr2.
      match type of Hr2 with _ = Ok (_, ?s) => set (st2 := s) in Hr2 end.
      destruct (MergeImportRef_dispatch_cases new_inst_id prev_inst_id
                  r1 r2 st2) as (ev & st' & Hd & Htr & Hcases).
      exists ev, st'. split; [|split].
      * unfold MergeImportRef, bind. rewrite Hr1, Hr2. exact Hd.
      * rewrite Htr. simpl. rewrite <- !app_assoc. reflexivity.
      * destruct Hcases as [[-> _] | [(n & p & nf & pf & _ & _ & _ & _ & ->)
                                     | (n & p & _ & _ & _ & _ & ->)]];
          reflexivity.
    + unfold aborts in *. unfold MergeImportRef, bind.
      rewrite Hr1, Hprev. reflexivity.
  - unfold aborts in *. unfold MergeImportRef, bind. rewrite Hnew.
    reflexivity.
Qed.

(** A returning run, taken apart: both resolver calls returned, and the
    dispatch made the one decision call [ev]. *)
Lemma MergeImportRef_returned (new_inst_id prev_inst_id : InstId)
    (st : State) (evs : list Event) (c' : Context) :
  returns (MergeImportRef new_inst_id prev_inst_id) st tt evs c' ->
  exists r1 st1 r2 st2 ev,
    ResolveMergeableInst new_inst_id st = Ok (r1, st1)
    /\ ResolveMergeableInst prev_inst_id st1 = Ok (r2, st2)
    /\ evs = resolver_events (insts (context st) new_inst_id) new_inst_id
             ++ resolver_events (insts (context st1) prev_inst_id)
                  prev_inst_id
             ++ [ev]
    /\ ((ev = CallDiagnoseDuplicateName new_inst_id prev_inst_id
         /\ (r1 = None \/ r2 = None
             \/ exists n p, r1 = Some n /\ r2 = Some p
                            /\ kind (inst n) <> kind (inst p)))
        \/ (exists n p nf pf,
              r1 = Some n /\ r2 = Some p
              /\ inst n = FunctionDecl nf /\ inst p = FunctionDecl pf
              /\ ev = CallMergeFunctionRedecl
                        (loc_ids (context st2) new_inst_id)
                        (functions (context st2) nf) true false pf
                        (import_ir_inst_id p))
        \/ (exists n p,
              r1 = Some n /\ r2 = Some p
              /\ kind (inst n) = kind (inst p)
              /\ kind (inst n) <> FunctionDecl_Kind
              /\ ev = CallTODO new_inst_id "Merging not yet supported.")).
Proof.
  unfold returns. intros Hret.
  apply MergeImportRef_returns_inv in Hret
    as (r1 & st1 & r2 & st2 & H1 & H2 & Hd).
  destruct (MergeImportRef_dispatch_cases new_inst_id prev_inst_id r1 r2 st2)
    as (ev & st' & Hd' & Htr & Hcases).
  rewrite Hd' in Hd. inversion Hd; subst st'. simpl in Htr.
  exists r1, st1, r2, st2, ev. repeat (split; [assumption|]).
  split; [|exact Hcases].
  apply ResolveMergeableInst_returns in H1 as (_ & Ht1 & _).
  apply ResolveMergeableInst_returns in H2 as (_ & Ht2 & _).
  rewrite Ht2, Ht1, <- !app_assoc in Htr.
  apply app_inv_head in Htr. exact Htr.
Qed.

(** A decision call found in the log of a returning run is its last
    event. *)
Lemma decision_call_is_last (i1 i2 : Inst) (id1 id2 : InstId)
    (ev e : Event) :
  In e (resolver_events i1 id1 ++ resolver_events i2 id2 ++ [ev]) ->
  is_decision_call e = true ->
  e = ev.
Proof.
  intros Hin He.
  apply in_app_or in Hin as [Hin|Hin].
  { apply resolver_events_quiet in Hin as [Hq _]. congruence. }
  apply in_app_or in Hin as [Hin|Hin].
  { apply resolver_events_quiet in Hin as [Hq _]. congruence. }
  destruct Hin as [<-|[]]. reflexivity.
Qed.

(** X6: the only way [MergeImportRef] aborts is the resolver's
    "Unexpected inst kind" abort, on an instruction that is neither an
    import reference nor a [Namespace]: the new instruction, or else
    the previous one as stored once the new id has been resolved.  The
    [As<...>] casts of lines 76 and 108 never fail. *)
Theorem MergeImportRef_aborts_only_in_resolver
    (new_inst_id prev_inst_id : InstId) (st : State)
    (msg : string) (subject : Inst) :
  aborts (MergeImportRef new_inst_id prev_inst_id) st msg subject ->
  let i1 := insts (context st) new_inst_id in
  let c1 := resolver_context i1 new_inst_id (context st) in
  msg = Unexpected_inst_kind
  /\ is_import_ref_or_namespace (kind subject) = false
  /\ (subject = i1
      \/ (is_import_ref_or_namespace (kind i1) = true
          /\ subject = insts c1 prev_inst_id)).
Proof.
  intros Hab i1 c1. unfold aborts in Hab.
  pose proof (MergeImportRef_run new_inst_id prev_inst_id st) as Hrun.
  simpl in Hrun. fold i1 in Hrun. fold c1 in Hrun.
  destruct (is_import_ref_or_namespace (kind i1)) eqn:Hk1.
  - destruct (is_import_ref_or_namespace (kind (insts c1 prev_inst_id)))
      eqn:Hk2.
    + destruct Hrun as (ev & st' & Hok & _). congruence.
    + unfold aborts in Hrun. rewrite Hrun in Hab. inversion Hab; subst.
      auto.
  - unfold aborts in Hrun. rewrite Hrun in Hab. inversion Hab; subst. auto.
Qed.

(** X7: [MergeImportRef] returns exactly when the new instruction is an
    import reference or a [Namespace] and so is the previous
    instruction as stored once the new id has been resolved (after the
    load, if the new id was an [ImportRefUnloaded]). *)
Theorem MergeImportRef_returns_iff
    (new_inst_id prev_inst_id : InstId) (st : State) :
  let i1 := insts (context st) new_inst_id in
  let c1 := resolver_context i1 new_inst_id (context st) in
  (exists st', MergeImportRef new_inst_id prev_inst_id st = Ok (tt, st'))
  <-> is_import_ref_or_namespace (kind i1) = true
      /\ is_import_ref_or_namespace (kind (insts c1 prev_inst_id)) = true.
Proof.
  intros i1 c1.
  pose proof (MergeImportRef_run new_inst_id prev_inst_id st) as Hrun.
  simpl in Hrun. fold i1 in Hrun. fold c1 in Hrun.
  destruct (is_import_ref_or_namespace (kind i1)).
  - destruct (is_import_ref_or_namespace (kind (insts c1 prev_inst_id))).
    + destruct Hrun as (ev & st' & Hok & _). split; eauto.
    + unfold aborts in Hrun. split.
      * intros (st' & Hok). congruence.
      * intros [_ Hno]. discriminate.
  - unfold aborts in Hrun. split.
    + intros (st' & Hok). congruence.
    + intros [Hno _]. discriminate.
Qed.

(** X8: a returning run of [MergeImportRef] makes exactly one call among
    [DiagnoseDuplicateName], [MergeFunctionRedecl] and [TODO], as its
    last action, and emits no diagnostic of its own. *)
Theorem MergeImportRef_one_decision_call
    (new_inst_id prev_inst_id : InstId) (st : State)
    (evs : list Event) (c' : Context) :
  returns (MergeImportRef new_inst_id prev_inst_id) st tt evs c' ->
  exists pre ev,
    evs = pre ++ [ev]
    /\ select is_decision_call evs = [ev]
    /\ select is_Emit evs = [].
Proof.
  intros Hret.
  apply MergeImportRef_returned in Hret
    as (r1 & st1 & r2 & st2 & ev & _ & _ & -> & Hcases).
  eexists. exists ev. split; [rewrite app_assoc; reflexivity|].
  rewrite !select_app.
  destruct (select_resolver_events (insts (context st) new_inst_id)
              new_inst_id) as (-> & ->).
  destruct (select_resolver_events (insts (context st1) prev_inst_id)
              prev_inst_id) as (-> & ->).
  destruct Hcases as [[-> _] | [(n & p & nf & pf & _ & _ & _ & _ & ->)
                                | (n & p & _ & _ & _ & _ & ->)]];
    split; reflexivity.
Qed.

(** X9: [MergeImportRef] resolves the new id before the previous id.
    With two [ImportRefUnloaded] references, the second still unloaded
    after the first load, the log of the run is: load of the new id, its
    constant-value query, load of the previous id, its constant-value
    query, and the decision call. *)
Theorem MergeImportRef_loads_new_first
    (new_inst_id prev_inst_id : InstId) (st : State)
    (imp1 imp2 : ImportIRInstId) :
  insts (context st) new_inst_id = ImportRefUnloaded imp1 ->
  insts (LoadImportRef_update new_inst_id LocId_Invalid (context st))
        prev_inst_id
  = ImportRefUnloaded imp2 ->
  exists ev st',
    MergeImportRef new_inst_id prev_inst_id st = Ok (tt, st')
    /\ trace st'
       = trace st
         ++ [CallLoadImportRef new_inst_id LocId_Invalid;
             ConstantValuesGet new_inst_id;
             CallLoadImportRef prev_inst_id LocId_Invalid;
             ConstantValuesGet prev_inst_id;
             ev]
    /\ is_decision_call ev = true.
Proof.
  intros Hnew Hprev.
  pose proof (MergeImportRef_run new_inst_id prev_inst_id st) as Hrun.
  simpl in Hrun. rewrite Hnew in Hrun. simpl in Hrun.
  rewrite Hprev in Hrun. simpl in Hrun. exact Hrun.
Qed.

(** X10: [MergeImportRef] calls [MergeFunctionRedecl] only when both
    resolver calls returned a [FunctionDecl]; the call then carries the
    location of the new id, the function of the new declaration,
    [new_is_import = true], [new_is_definition = false], the function id
    of the previous declaration and the previous resolution's
    [import_ir_inst_id]. *)
Theorem MergeImportRef_merges_only_FunctionDecls
    (new_inst_id prev_inst_id : InstId) (st : State)
    (evs : list Event) (c' : Context)
    (loc : LocId) (fn : Function) (imp def : bool) (pf : FunctionId)
    (pimp : ImportIRInstId) :
  returns (MergeImportRef new_inst_id prev_inst_id) st tt evs c' ->
  In (CallMergeFunctionRedecl loc fn imp def pf pimp) evs ->
  exists st1 st2 n p nf,
    ResolveMergeableInst new_inst_id st = Ok (Some n, st1)
    /\ ResolveMergeableInst prev_inst_id st1 = Ok (Some p, st2)
    /\ inst n = FunctionDecl nf
    /\ inst p = FunctionDecl pf
    /\ loc = loc_ids (context st2) new_inst_id
    /\ fn = functions (context st2) nf
    /\ imp = true /\ def = false
    /\ pimp = import_ir_inst_id p.
Proof.
  intros Hret Hin.
  apply MergeImportRef_returned in Hret
    as (r1 & st1 & r2 & st2 & ev & H1 & H2 & -> & Hcases).
  apply decision_call_is_last in Hin; [|reflexivity]. subst ev.
  destruct Hcases as [[Hev _] | [(n & p & nf & pf' & -> & -> & Hn & Hp & Hev)
                                | (n & p & _ & _ & _ & _ & Hev)]];
    try discriminate.
  inversion Hev; subst. exists st1, st2, n, p, nf. repeat split; auto.
Qed.

(** X11: [MergeImportRef] calls [DiagnoseDuplicateName] only with its own
    two arguments, and only when a resolver call returned "not
    mergeable" or the two resolved instructions differ in kind. *)
Theorem MergeImportRef_diagnoses_only_conflicts
    (new_inst_id prev_inst_id : InstId) (st : State)
    (evs : list Event) (c' : Context) (a b : InstId) :
  returns (MergeImportRef new_inst_id prev_inst_id) st tt evs c' ->
  In (CallDiagnoseDuplicateName a b) evs ->
  a = new_inst_id /\ b = prev_inst_id
  /\ exists r1 st1 r2 st2,
       ResolveMergeableInst new_inst_id st = Ok (r1, st1)
       /\ ResolveMergeableInst prev_inst_id st1 = Ok (r2, st2)
       /\ (r1 = None \/ r2 = None
           \/ exists n p, r1 = Some n /\ r2 = Some p
                          /\ kind (inst n) <> kind (inst p)).
Proof.
  intros Hret Hin.
  apply MergeImportRef_returned in Hret
    as (r1 & st1 & r2 & st2 & ev & H1 & H2 & -> & Hcases).
  apply decision_call_is_last in Hin; [|reflexivity]. subst ev.
  destruct Hcases as [[Hev Hwhy] | [(n & p & nf & pf & _ & _ & _ & _ & Hev)
                                   | (n & p & _ & _ & _ & _ & Hev)]];
    try discriminate.
  inversion Hev; subst. split; [reflexivity|]. split; [reflexivity|].
  exists r1, st1, r2, st2. auto.
Qed.

(** X12: [MergeImportRef] calls [TODO] only for the new id, with the
    message "Merging not yet supported.", and only when both resolver
    calls returned instructions of one kind that is not
    [FunctionDecl]. *)
Theorem MergeImportRef_defers_only_same_kind
    (new_inst_id prev_inst_id : InstId) (st : State)
    (evs : list Event) (c' : Context) (a : InstId) (msg : string) :
  returns (MergeImportRef new_inst_id prev_inst_id) st tt evs c' ->
  In (CallTODO a msg) evs ->
  a = new_inst_id /\ msg = "Merging not yet supported."
  /\ exists st1 st2 n p,
       ResolveMergeableInst new_inst_id st = Ok (Some n, st1)
       /\ ResolveMergeableInst prev_inst_id st1 = Ok (Some p, st2)
       /\ kind (inst n) = kind (inst p)
       /\ kind (inst n) <> FunctionDecl_Kind.
Proof.
  intros Hret Hin.
  apply MergeImportRef_returned in Hret
    as (r1 & st1 & r2 & st2 & ev & H1 & H2 & -> & Hcases).
  apply decision_call_is_last in Hin; [|reflexivity]. subst ev.
  destruct Hcases as [[Hev _] | [(n & p & nf & pf & _ & _ & _ & _ & Hev)
                                | (n & p & -> & -> & Hsame & Hnot & Hev)]];
    try discriminate.
  inversion Hev; subst. split; [reflexivity|]. split; [reflexivity|].
  exists st1, st2, n, p. auto.
Qed.

End OrchestratorProperties.

(** ** Further properties of the Scope Rebinder *)

Section RebinderProperties.

Lemma NameScope_eta (ns : NameScope) : {| names := names ns |} = ns.
Proof. destruct ns; reflexivity. Qed.

Lemma rebound_lookup (name other : NameId) (new_inst_id : InstId)
    (tbl : gmap Z Z) :
  rebound name new_inst_id tbl !! other
  = if decide (other = name)
    then (fun _ => new_inst_id) <$> tbl !! name
    else tbl !! other.
Proof.
  unfold rebound. destruct (decide (other = name)) as [->|Hne].
  - destruct (tbl !! name) eqn:Hfind; simpl.
    + apply lookup_insert_eq.
    + exact Hfind.
  - destruct (tbl !! name); [|reflexivity].
    apply lookup_insert_ne. congruence.
Qed.

(** Every run of the rebinder: it returns, logs nothing, and replaces
    the table of the one scope by its [rebound] version. *)
Lemma ReplacePrevInstForMerge_run (scope_id : NameScopeId) (name : NameId)
    (new_inst_id : InstId) (st : State) :
  exists st',
    ReplacePrevInstForMerge scope_id name new_inst_id st = Ok (tt, st')
    /\ trace st' = trace st
    /\ insts (context st') = insts (context st)
    /\ loc_ids (context st') = loc_ids (context st)
    /\ constant_values (context st') = constant_values (context st)
    /\ functions (context st') = functions (context st)
    /\ forall s,
         name_scopes (context st') s
         = if decide (s = scope_id)
           then {| names := rebound name new_inst_id
                              (names (name_scopes (context st) s)) |}
           else name_scopes (context st) s.
Proof.
  unfold ReplacePrevInstForMerge. run_M.
  destruct (names (name_scopes (context st) scope_id) !! name) as [old|]
    eqn:Hfind.
  - eexists. split; [reflexivity|]. simpl. repeat (split; [reflexivity|]).
    intros s. destruct (decide (s = scope_id)) as [->|Hne]; [|reflexivity].
    unfold rebound. rewrite Hfind. reflexivity.
  - exists st. repeat (split; [reflexivity|]).
    intros s. destruct (decide (s = scope_id)) as [->|Hne]; [|reflexivity].
    unfold rebound. rewrite Hfind. symmetry. apply NameScope_eta.
Qed.

(** Two rebindings in a row, scope by scope. *)
Lemma ReplacePrevInstForMerge_twice (s1 s2 : NameScopeId) (n1 n2 : NameId)
    (a b : InstId) (st : State) :
  exists st2,
    (do_ ReplacePrevInstForMerge s1 n1 a; ReplacePrevInstForMerge s2 n2 b) st
    = Ok (tt, st2)
    /\ trace st2 = trace st
    /\ insts (context st2) = insts (context st)
    /\ loc_ids (context st2) = loc_ids (context st)
    /\ constant_values (context st2) = constant_values (context st)
    /\ functions (context st2) = functions (context st)
    /\ forall s,
         names (name_scopes (context st2) s)
         = let t0 := names (name_scopes (context st) s) in
           let t1 := if decide (s = s1) then rebound n1 a t0 else t0 in
           if decide (s = s2) then rebound n2 b t1 else t1.
Proof.
  destruct (ReplacePrevInstForMerge_run s1 n1 a st)
    as (st1 & Hr1 & Ht1 & Hi1 & Hl1 & Hc1 & Hf1 & Hn1).
  destruct (ReplacePrevInstForMerge_run s2 n2 b st1)
    as (st2 & Hr2 & Ht2 & Hi2 & Hl2 & Hc2 & Hf2 & Hn2).
  exists st2. unfold bind. rewrite Hr1, Hr2.
  split; [reflexivity|]. repeat (split; [congruence|]).
  intros s. simpl. rewrite Hn2.
  destruct (decide (s = s2)); simpl; rewrite Hn1;
    destruct (decide (s = s1)); reflexivity.
Qed.

Lemma same_stores_of_names (c1 c2 : Context) :
  insts c1 = insts c2 ->
  loc_ids c1 = loc_ids c2 ->
  constant_values c1 = constant_values c2 ->
  functions c1 = functions c2 ->
  (forall s, names (name_scopes c1 s) = names (name_scopes c2 s)) ->
  same_stores c1 c2.
Proof.
  intros Hi Hl Hc Hf Hn. repeat (split; [assumption|]).
  intros s. specialize (Hn s).
  destruct (name_scopes c1 s), (name_scopes c2 s). simpl in Hn.
  congruence.
Qed.

(** X13: rebinding a name twice in the same scope leaves the stores as
    rebinding it once to the second id does: the last rebinding wins,
    and rebinding is idempotent. *)
Theorem ReplacePrevInstForMerge_last_wins
    (scope_id : NameScopeId) (name : NameId) (a b : InstId) (st : State) :
  exists st2 st1,
    (do_ ReplacePrevInstForMerge scope_id name a;
     ReplacePrevInstForMerge scope_id name b) st
    = Ok (tt, st2)
    /\ ReplacePrevInstForMerge scope_id name b st = Ok (tt, st1)
    /\ same_stores (context st2) (context st1)
    /\ trace st2 = trace st1.
Proof.
  destruct (ReplacePrevInstForMerge_twice scope_id scope_id name name a b st)
    as (st2 & Hr2 & Ht2 & Hi2 & Hl2 & Hc2 & Hf2 & Hn2).
  destruct (ReplacePrevInstForMerge_run scope_id name b st)
    as (st1 & Hr1 & Ht1 & Hi1 & Hl1 & Hc1 & Hf1 & Hn1).
  exists st2, st1. split; [exact Hr2|]. split; [exact Hr1|].
  split; [|congruence].
  apply same_stores_of_names; try congruence.
  intros s. rewrite Hn2, Hn1. simpl.
  destruct (decide (s = scope_id)); [|reflexivity]. simpl.
  apply map_eq. intros k. rewrite !rebound_lookup.
  destruct (decide (k = name)); [|reflexivity].
  destruct (decide (name = name)); [|congruence].
  destruct (names (name_scopes (context st) s) !! name); reflexivity.
Qed.

(** X14: when the name is bound, rebinding it to a new id and then back
    to the id it had restores every store. *)
Theorem ReplacePrevInstForMerge_restore
    (scope_id : NameScopeId) (name : NameId) (old new_inst_id : InstId)
    (st : State) :
  names (name_scopes (context st) scope_id) !! name = Some old ->
  exists st2,
    (do_ ReplacePrevInstForMerge scope_id name new_inst_id;
     ReplacePrevInstForMerge scope_id name old) st
    = Ok (tt, st2)
    /\ same_stores (context st2) (context st)
    /\ trace st2 = trace st.
Proof.
  intros Hold.
  destruct (ReplacePrevInstForMerge_twice scope_id scope_id name name
              new_inst_id old st)
    as (st2 & Hr2 & Ht2 & Hi2 & Hl2 & Hc2 & Hf2 & Hn2).
  exists st2. split; [exact Hr2|]. split; [|exact Ht2].
  apply same_stores_of_names; try assumption.
  intros s. rewrite Hn2. simpl.
  destruct (decide (s = scope_id)) as [->|]; [|reflexivity].
  apply map_eq. intros k. rewrite !rebound_lookup.
  destruct (decide (k = name)) as [->|]; [|reflexivity].
  destruct (decide (name = name)); [|congruence].
  rewrite Hold. reflexivity.
Qed.

(** X15: rebindings of different names, or in different scopes, commute:
    either order leaves the same stores. *)
Theorem ReplacePrevInstForMerge_commute
    (s1 s2 : NameScopeId) (n1 n2 : NameId) (a b : InstId) (st : State) :
  s1 <> s2 \/ n1 <> n2 ->
  exists st12 st21,
    (do_ ReplacePrevInstForMerge s1 n1 a; ReplacePrevInstForMerge s2 n2 b) st
    = Ok (tt, st12)
    /\ (do_ ReplacePrevInstForMerge s2 n2 b; ReplacePrevInstForMerge s1 n1 a)
         st
       = Ok (tt, st21)
    /\ same_stores (context st12) (context st21)
    /\ trace st12 = trace st21.
Proof.
  intros Hdiff.
  destruct (ReplacePrevInstForMerge_twice s1 s2 n1 n2 a b st)
    as (st12 & Hr12 & Ht12 & Hi12 & Hl12 & Hc12 & Hf12 & Hn12).
  destruct (ReplacePrevInstForMerge_twice s2 s1 n2 n1 b a st)
    as (st21 & Hr21 & Ht21 & Hi21 & Hl21 & Hc21 & Hf21 & Hn21).
  exists st12, st21. split; [exact Hr12|]. split; [exact Hr21|].
  split; [|congruence].
  apply same_stores_of_names; try congruence.
  intros s. rewrite Hn12, Hn21. simpl.
  destruct (decide (s = s1)) as [Hs1|Hs1], (decide (s = s2)) as [Hs2|Hs2];
    try reflexivity.
  destruct Hdiff as [Hs|Hn]; [congruence|].
  apply map_eq. intros k. rewrite !rebound_lookup.
  repeat case_decide; subst; try congruence; reflexivity.
Qed.

(** X16: rebinding a name changes nothing that [ResolvePrevInstForMerge]
    reads: run after [ReplacePrevInstForMerge], it returns the same
    result and logs the same events as run before it. *)
Theorem ResolvePrevInstForMerge_after_rebinding
    (scope_id : NameScopeId) (name : NameId) (new_inst_id : InstId)
    (node_id : NodeId) (prev_inst_id : InstId) (st : State) :
  exists st' r evs,
    ReplacePrevInstForMerge scope_id name new_inst_id st = Ok (tt, st')
    /\ returns (ResolvePrevInstForMerge node_id prev_inst_id) st r evs
         (context st)
    /\ returns (ResolvePrevInstForMerge node_id prev_inst_id) st' r evs
         (context st').
Proof.
  destruct (ReplacePrevInstForMerge_run scope_id name new_inst_id st)
    as (st' & Hr & Ht & Hi & Hl & Hc & Hf & Hn).
  exists st'. eexists. eexists. split; [exact Hr|].
  split; [apply ResolvePrevInstForMerge_run|].
  pose proof (ResolvePrevInstForMerge_run node_id prev_inst_id st') as Hrun.
  simpl in Hrun. unfold candidate_result in *. rewrite Hi, Hc in Hrun.
  exact Hrun.
Qed.

End RebinderProperties.

(** ** The further properties on the concrete sessions *)

Module OnExampleMore.
Import Example Example2.

Lemma ResolvePrevInstForMerge_not_imported_witness :
  ResolvePrevInstForMerge 55 3 example_state
  = Ok ({| inst := FunctionDecl 3;
           import_ir_inst_id := ImportIRInstId_Invalid |}, example_state).
Proof.
  exact (ResolvePrevInstForMerge_not_imported 55 3 example_state
           ltac:(discriminate) ltac:(discriminate)).
Defined.

Lemma ResolveMergeableInst_loads_then_reads_witness :
  returns (ResolveMergeableInst 1) example_state
    (Some {| inst := FunctionDecl 2; import_ir_inst_id := 41 |})
    [CallLoadImportRef 1 LocId_Invalid; ConstantValuesGet 1]
    loaded_context.
Proof.
  exact (ResolveMergeableInst_loads_then_reads 1 example_state 41 eq_refl).
Defined.

Lemma ResolveMergeableInst_not_mergeable_iff_witness :
  (@None InstForMerge = None
   <-> kind (example_insts 4) <> Namespace_Kind
       /\ constant_values example_context 4 = NotConstant)
  /\ (Some {| inst := FunctionDecl 1; import_ir_inst_id := 40 |}
      = None
      <-> kind (example_insts 0) <> Namespace_Kind
          /\ constant_values example_context 0 = NotConstant).
Proof.
  split.
  - exact (proj1 (ResolveMergeableInst_not_mergeable_iff 4 example_state
                    {| context := example_context;
                       trace := [ConstantValuesGet 4] |}
                    None eq_refl)).
  - exact (proj1 (ResolveMergeableInst_not_mergeable_iff 0 example_state
                    {| context := example_context;
                       trace := [ConstantValuesGet 0] |}
                    (Some {| inst := FunctionDecl 1;
                             import_ir_inst_id := 40 |})
                    eq_refl)).
Defined.

Lemma resolvers_agree_on_used_constant_witness :
  returns (ResolveMergeableInst 0) example_state
    (Some {| inst := FunctionDecl 1; import_ir_inst_id := 40 |})
    [ConstantValuesGet 0] example_context
  /\ returns (ResolvePrevInstForMerge 55 0) example_state
       {| inst := FunctionDecl 1; import_ir_inst_id := 40 |}
       [Emit (RedeclOfUsedImport_diagnostic 55 7); ConstantValuesGet 0]
       example_context.
Proof.
  exact (resolvers_agree_on_used_constant 55 0 example_state 40 7 10
           eq_refl eq_refl).
Defined.

Lemma MergeImportRef_aborts_only_in_resolver_witness :
  Unexpected_inst_kind = Unexpected_inst_kind
  /\ is_import_ref_or_namespace (kind (FunctionDecl 3)) = false
  /\ (FunctionDecl 3 = example_insts 4
      \/ (is_import_ref_or_namespace (kind (example_insts 4)) = true
          /\ FunctionDecl 3 = example_insts 3)).
Proof.
  exact (MergeImportRef_aborts_only_in_resolver 4 3 example_state
           Unexpected_inst_kind (FunctionDecl 3) eq_refl).
Defined.

Lemma MergeImportRef_one_decision_call_witness :
  exists pre ev,
    [ConstantValuesGet 0; ConstantValuesGet 6;
     CallDiagnoseDuplicateName 0 6]
    = pre ++ [ev]
    /\ select is_decision_call
         [ConstantValuesGet 0; ConstantValuesGet 6;
          CallDiagnoseDuplicateName 0 6]
       = [ev]
    /\ select is_Emit
         [ConstantValuesGet 0; ConstantValuesGet 6;
          CallDiagnoseDuplicateName 0 6]
       = [].
Proof.
  exact (MergeImportRef_one_decision_call 0 6 example_state
           [ConstantValuesGet 0; ConstantValuesGet 6;
            CallDiagnoseDuplicateName 0 6]
           example_context eq_refl).
Defined.

Lemma MergeImportRef_loads_new_first_witness :
  exists ev st',
    MergeImportRef 1 2 example2_state = Ok (tt, st')
    /\ trace st'
       = [CallLoadImportRef 1 LocId_Invalid; ConstantValuesGet 1;
          CallLoadImportRef 2 LocId_Invalid; ConstantValuesGet 2; ev]
    /\ is_decision_call ev = true.
Proof.
  exact (MergeImportRef_loads_new_first 1 2 example2_state 41 42
           eq_refl eq_refl).
Defined.

Lemma MergeImportRef_merges_only_FunctionDecls_witness :
  exists st1 st2 n p nf,
    ResolveMergeableInst 1 example_state = Ok (Some n, st1)
    /\ ResolveMergeableInst 0 st1 = Ok (Some p, st2)
    /\ inst n = FunctionDecl nf
    /\ inst p = FunctionDecl 1
    /\ 1001 = loc_ids (context st2) 1
    /\ {| name_id := 102; decl_id := 2 |} = functions (context st2) nf
    /\ true = true /\ false = false
    /\ 40 = import_ir_inst_id p.
Proof.
  exact (MergeImportRef_merges_only_FunctionDecls 1 0 example_state
           [CallLoadImportRef 1 LocId_Invalid; ConstantValuesGet 1;
            ConstantValuesGet 0;
            CallMergeFunctionRedecl 1001 {| name_id := 102; decl_id := 2 |}
              true false 1 40]
           loaded_context
           1001 {| name_id := 102; decl_id := 2 |} true false 1 40
           eq_refl ltac:(simpl; tauto)).
Defined.

Lemma MergeImportRef_diagnoses_only_conflicts_witness :
  0 = 0 /\ 6 = 6
  /\ exists r1 st1 r2 st2,
       ResolveMergeableInst 0 example_state = Ok (r1, st1)
       /\ ResolveMergeableInst 6 st1 = Ok (r2, st2)
       /\ (r1 = None \/ r2 = None
           \/ exists n p, r1 = Some n /\ r2 = Some p
                          /\ kind (inst n) <> kind (inst p)).
Proof.
  exact (MergeImportRef_diagnoses_only_conflicts 0 6 example_state
           [ConstantValuesGet 0; ConstantValuesGet 6;
            CallDiagnoseDuplicateName 0 6]
           example_context 0 6 eq_refl ltac:(simpl; tauto)).
Defined.

Lemma MergeImportRef_defers_only_same_kind_witness :
  2 = 2 /\ "Merging not yet supported." = "Merging not yet supported."
  /\ exists st1 st2 n p,
       ResolveMergeableInst 2 example_state = Ok (Some n, st1)
       /\ ResolveMergeableInst 8 st1 = Ok (Some p, st2)
       /\ kind (inst n) = kind (inst p)
       /\ kind (inst n) <> FunctionDecl_Kind.
Proof.
  exact (MergeImportRef_defers_only_same_kind 2 8 example_state
           [CallTODO 2 "Merging not yet supported."]
           example_context 2 "Merging not yet supported."
           eq_refl ltac:(simpl; tauto)).
Defined.

Lemma ReplacePrevInstForMerge_restore_witness :
  exists st2,
    (do_ ReplacePrevInstForMerge 0 100 13; ReplacePrevInstForMerge 0 100 3)
      example_state
    = Ok (tt, st2)
    /\ same_stores (context st2) example_context
    /\ trace st2 = [].
Proof.
  exact (ReplacePrevInstForMerge_restore 0 100 3 13 example_state eq_refl).
Defined.

Lemma ReplacePrevInstForMerge_commute_witness :
  exists st12 st21,
    (do_ ReplacePrevInstForMerge 0 100 13; ReplacePrevInstForMerge 0 101 10)
      example_state
    = Ok (tt, st12)
    /\ (do_ ReplacePrevInstForMerge 0 101 10; ReplacePrevInstForMerge 0 100 13)
         example_state
       = Ok (tt, st21)
    /\ same_stores (context st12) (context st21)
    /\ trace st12 = trace st21.
Proof.
  exact (ReplacePrevInstForMerge_commute 0 0 100 101 13 10 example_state
           ltac:(right; discriminate)).
Defined.

End OnExampleMore.
